(** * wandbot retrieval pipeline: a shallow embedding of
      [src/wandbot/chat/retriever.py] and the properties of its fusion,
      post-processing and session logic.

    Layout: the Python data the code manipulates (module [Py]), the
    external collaborators taken as given ([Collaborators]), one module
    per class of the source, and then the theorems. *)

From Stdlib Require Import ZArith Floats Ascii String.
From stdpp Require Import base option gmap strings pretty list.

Set Warnings "-register-all".
Local Open Scope Z_scope.

(** ** Python values, exceptions and the few built-ins the code uses *)
Module Py.

(** The exceptions that can travel through the retrieval code. *)
Inductive exn : Type :=
| KeyError (key : string)
| TypeError
| AttributeError
| IndexError
| JSONDecodeError
| ValidationError
| RequestException
| ServiceError (what : string).

(** A computation either returns or raises. *)
Inductive result (A : Type) : Type :=
| Ok (a : A)
| Raise (e : exn).
Arguments Ok {A} a.
Arguments Raise {A} e.

#[export] Instance result_ret : MRet result := fun _ a => Ok a.
#[export] Instance result_bind : MBind result := fun _ _ f m =>
  match m with
  | Ok a => f a
  | Raise e => Raise e
  end.
#[export] Instance result_fmap : FMap result := fun _ _ f m =>
  match m with
  | Ok a => Ok (f a)
  | Raise e => Raise e
  end.

Definition is_Ok {A} (m : result A) : Prop := ∃ a, m = Ok a.

(** Values that come out of [response.json()] and that sit in a node's
    metadata dict.  A [JObj] is a dict in insertion order (its keys are
    distinct); order matters because iterating a dict yields its keys
    in that order. *)
Inductive json : Type :=
| JNull
| JBool (b : bool)
| JInt (z : Z)
| JFloat (f : float)
| JStr (s : string)
| JArr (items : list json)
| JObj (fields : list (string * json)).

Definition dict_get (fields : list (string * json)) (key : string) : option json :=
  snd <$> List.find (fun kv => String.eqb (fst kv) key) fields.

(** [v[key]] for a string key: only a dict can be subscripted by a
    string; on a list or a str it is a TypeError, like on None or a
    number. *)
Definition getitem (v : json) (key : string) : result json :=
  match v with
  | JObj fields =>
      match dict_get fields key with
      | Some x => Ok x
      | None => Raise (KeyError key)
      end
  | _ => Raise TypeError
  end.

(** [d[key]] on a dict held as a finite map. *)
Definition lookup_key {V} (d : gmap string V) (key : string) : result V :=
  match d !! key with
  | Some x => Ok x
  | None => Raise (KeyError key)
  end.

(** [for x in v]: lists yield their items, strings their characters,
    dicts their keys; nothing else is iterable. *)
Definition iter (v : json) : result (list json) :=
  match v with
  | JArr items => Ok items
  | JStr s => Ok ((fun c => JStr (String c EmptyString)) <$> list_ascii_of_string s)
  | JObj fields => Ok ((fun kv => JStr (fst kv)) <$> fields)
  | _ => Raise TypeError
  end.

(** A [string] stands for a Python str whose code points are all below
    256; [lower] and [strip] are those of Python on such strings. *)
Definition lower_char (c : ascii) : ascii :=
  let n := N_of_ascii c in
  if ((65 <=? n) && (n <=? 90) || (192 <=? n) && (n <=? 222) && negb (n =? 215))%N
  then ascii_of_N (n + 32)
  else c.

(** [s.lower()] *)
Fixpoint lower (s : string) : string :=
  match s with
  | EmptyString => EmptyString
  | String c s' => String (lower_char c) (lower s')
  end.

(** The characters [str.strip()] removes. *)
Definition is_space (c : ascii) : bool :=
  let n := N_of_ascii c in
  ((9 <=? n) && (n <=? 13) || (28 <=? n) && (n <=? 32) || (n =? 133) || (n =? 160))%N.

Fixpoint lstrip (s : string) : string :=
  match s with
  | EmptyString => EmptyString
  | String c s' => if is_space c then lstrip s' else s
  end.

Fixpoint rstrip (s : string) : string :=
  match s with
  | EmptyString => EmptyString
  | String c s' =>
      match rstrip s' with
      | EmptyString => if is_space c then EmptyString else String c EmptyString
      | r => String c r
      end
  end.

(** [s.strip()] *)
Definition strip (s : string) : string := rstrip (lstrip s).

(** [set(a).issubset(set(b))] *)
Definition issubset (a b : list string) : bool :=
  bool_decide (list_to_set (C:=gset string) a ⊆ list_to_set b).

(** [l[:k]] *)
Definition slice_to {A} (l : list A) (k : Z) : list A :=
  if k <? 0 then take (Z.to_nat (Z.of_nat (length l) + k)) l
  else take (Z.to_nat k) l.

(** [[x] * k] *)
Definition repeat_list {A} (x : A) (k : Z) : list A := replicate (Z.to_nat k) x.

(** [len(l)] *)
Definition len {A} (l : list A) : Z := Z.of_nat (length l).

(** [for x in l: if cond(x): acc.append(x)], where [cond] may raise. *)
Fixpoint filter_loop {A} (cond : A → result bool) (l : list A) (acc : list A)
  : result (list A) :=
  match l with
  | [] => Ok acc
  | x :: l' =>
      b ← cond x;
      filter_loop cond l' (if b : bool then acc ++ [x] else acc)
  end.

(** [a or b] on [int | None], [str | None] and [bool | None]. *)
Definition or_int (a : option Z) (b : Z) : Z :=
  match a with
  | Some z => if z =? 0 then b else z
  | None => b
  end.

Definition or_str (a : option string) (b : string) : string :=
  match a with
  | Some (String _ _ as s) => s
  | _ => b
  end.

Definition or_bool (a b : option bool) : option bool :=
  match a with
  | Some true => a
  | _ => b
  end.

(** [bool(x)] on [bool | None] *)
Definition truth (a : option bool) : bool :=
  match a with
  | Some true => true
  | _ => false
  end.

(** Truthiness of [List[str] | None]. *)
Definition nonempty (o : option (list string)) : bool :=
  match o with
  | Some (_ :: _) => true
  | _ => false
  end.

End Py.
Import Py.

(** ** llama_index nodes *)

Record TextNode : Type := mkTextNode {
  node_id : string;
  text : string;
  metadata : gmap string json;
}.

Record NodeWithScore : Type := mkNodeWithScore {
  node : TextNode;
  score : option float;
}.

(** [NodeWithScore.get_text()] *)
Definition get_text (n : NodeWithScore) : string := text (node n).

(** [NodeWithScore.get_score()]: a missing score reads as 0.0. *)
Definition get_score (n : NodeWithScore) : float :=
  match score n with
  | Some s => s
  | None => 0%float
  end.

(** ** External collaborators

    Everything the source calls but does not define: the two index
    retrievers, the HTTP client, the identifier generator and the text
    validation behind [TextNode(...)], the [retrieve] the web retriever
    inherits from llama_index, the sentinel constructor of
    [wandbot.utils], and the Cohere re-ranker.  One value of this record
    is the behaviour of those collaborators during one retrieval. *)

Inductive http_outcome : Type :=
| HttpRaises (e : exn)
| HttpResponse (status_code : Z) (json_body : result json).

Record Collaborators : Type := {
  (** [BM25Retriever.from_defaults(similarity_top_k=k).retrieve(query)] *)
  bm25_retrieve : Z → string → list NodeWithScore;
  (** [index.as_retriever(similarity_top_k=k).retrieve(query)] *)
  vector_retrieve : Z → string → list NodeWithScore;
  (** [requests.get(url, headers={"X-API-Key": key}, params={query, num_web_results})] *)
  requests_get : string → string → string → Z → http_outcome;
  (** the identifier given to the i-th node built during the call *)
  uuid4 : nat → string;
  (** the validation of the [text] argument of [TextNode] *)
  validate_text : json → result string;
  (** [BaseRetriever.retrieve] of llama_index, which [YouRetriever]
      inherits: from the nodes [_retrieve] returned, the nodes the call
      returns.  It hands back nodes it was given, in their order, and may
      leave some out (nodes whose content repeats). *)
  base_retrieve : list NodeWithScore → list NodeWithScore;
  base_retrieve_sublist : ∀ nodes, base_retrieve nodes `sublist_of` nodes;
  (** [wandbot.utils.create_no_result_dummy_node()] *)
  create_no_result_dummy_node : NodeWithScore;
  (** [CohereRerank(top_n, model)._postprocess_nodes(nodes, query)] *)
  cohere_rerank : string → Z → string → list NodeWithScore → result (list NodeWithScore);
}.

(** ** class LanguageFilterPostprocessor *)
Module LanguageFilterPostprocessor.

Record t : Type := {
  languages : list string;
  min_result_size : Z;
}.

(** [node.metadata["language"] in self.languages] *)
Definition language_in (self : t) (n : NodeWithScore) : result bool :=
  v ← lookup_key (metadata (node n)) "language";
  mret (match v with
        | JStr s => bool_decide (s ∈ languages self)
        | _ => false
        end).

Definition _postprocess_nodes (self : t) (nodes : list NodeWithScore)
  : result (list NodeWithScore) :=
  new_nodes ← filter_loop (language_in self) nodes [];
  if len new_nodes <? min_result_size self
  then mret (new_nodes ++ slice_to nodes (min_result_size self - len new_nodes))
  else mret new_nodes.

End LanguageFilterPostprocessor.

(** ** class MetadataPostprocessor *)
Module MetadataPostprocessor.

Record t : Type := {
  min_result_size : Z;
  include_tags : option (list string);
  exclude_tags : option (list string);
}.

(** [tag.lower().strip()] on a value that need not be a string *)
Definition normalize (v : json) : result string :=
  match v with
  | JStr s => Ok (strip (lower s))
  | _ => Raise AttributeError
  end.

(** [[tag.lower().strip() for tag in node.metadata["tags"]]] *)
Definition normalized_tags (n : NodeWithScore) : result (list string) :=
  tags ← lookup_key (metadata (node n)) "tags";
  items ← iter tags;
  mapM normalize items.

(** The body of the loop: [true] when the node is appended, [false]
    when one of the two [continue]s is taken. *)
Definition keeps (self : t) (n : NodeWithScore) : result bool :=
  normalized ← normalized_tags n;
  if nonempty (include_tags self)
     && negb (issubset ((fun tag => strip (lower tag)) <$> default [] (include_tags self))
                       normalized)
  then mret false
  else if nonempty (exclude_tags self)
          && issubset ((fun tag => strip (lower tag)) <$> default [] (exclude_tags self))
                      normalized
  then mret false
  else mret true.

Definition _postprocess_nodes (env : Collaborators) (self : t)
    (nodes : list NodeWithScore) : result (list NodeWithScore) :=
  if negb (nonempty (include_tags self)) && negb (nonempty (exclude_tags self))
  then mret nodes
  else
    new_nodes ← filter_loop (keeps self) nodes [];
    if len new_nodes <? min_result_size self
    then
      let dummy_node := create_no_result_dummy_node env in
      mret (new_nodes ++ repeat_list dummy_node (min_result_size self - len new_nodes))
    else mret new_nodes.

End MetadataPostprocessor.

(** ** class YouRetriever *)
Module YouRetriever.

Record t : Type := {
  _api_key : string;
  similarity_top_k : Z;
}.

(** [__init__]: [environ] is [os.environ]. *)
Definition __init__ (environ : gmap string string) (api_key : option string)
    (similarity_top_k : Z) : result t :=
  key ← match api_key with
        | Some (String _ _ as k) => Ok k
        | _ => lookup_key environ "YOU_API_KEY"
        end;
  mret {| _api_key := key;
          similarity_top_k := if similarity_top_k <=? 20 then similarity_top_k else 20 |}.

Definition url : string := "https://api.ydc-index.io/search".

(** The ["query"] parameter of the request. *)
Definition query_param (query_str : string) : string :=
  "Weights & Biases, W&B, wandb or Weave " ++ query_str.

(** The metadata dict built for one hit. *)
Definition hit_metadata (hit : json) : result (gmap string json) :=
  source ← getitem hit "url";
  description ← getitem hit "description";
  title ← getitem hit "title";
  mret (<["source" := source]>
        (<["language" := JStr "en"]>
        (<["description" := description]>
        (<["title" := title]>
        (<["tags" := JArr [JStr "you.com"]]> ∅))))).

(** The pairs [(snippet, metadata)] of one hit, in snippet order. *)
Definition hit_pairs (p : json * gmap string json)
  : result (list (json * gmap string json)) :=
  snippet_list ← iter (fst p);
  Ok ((fun snippet : json => (snippet, snd p)) <$> (snippet_list : list json)).

(** [NodeWithScore(node=TextNode(text=s[0], metadata=s[1]), score=1.0)]
    for the i-th search hit. *)
Definition make_node (env : Collaborators)
    (s : nat * (json * gmap string json)) : result NodeWithScore :=
  txt ← validate_text env (fst (snd s));
  mret {| node := {| node_id := uuid4 env (fst s);
                     text := txt;
                     metadata := snd (snd s) |};
          score := Some 1%float |}.

(** What follows [response.json()] inside the [try] block. *)
Definition nodes_of_results (env : Collaborators) (results : json)
  : result (list NodeWithScore) :=
  hits ← getitem results "hits" ≫= iter;
  snippets ← mapM (fun hit => getitem hit "snippets") hits;
  hits' ← getitem results "hits" ≫= iter;
  snippet_metadata ← mapM hit_metadata hits';
  per_hit ← mapM hit_pairs (zip snippets snippet_metadata);
  let search_hits : list (json * gmap string json) := mjoin per_hit in
  mapM (make_node env) (zip (seq 0 (length search_hits)) search_hits).

(** [requests.get(url, headers=headers, params=querystring)] *)
Definition send (env : Collaborators) (self : t) (query_str : string) : http_outcome :=
  requests_get env url (_api_key self) (query_param query_str) (similarity_top_k self).

(** The [try] block. *)
Definition try_retrieve (env : Collaborators) (self : t) (query_str : string)
  : result (list NodeWithScore) :=
  match send env self query_str with
  | HttpRaises e => Raise e
  | HttpResponse status_code json_body =>
      if negb (status_code =? 200)
      then mret []
      else json_body ≫= nodes_of_results env
  end.

(** [_retrieve]: any exception of the [try] block becomes []. *)
Definition _retrieve (env : Collaborators) (self : t) (query_str : string)
  : list NodeWithScore :=
  match try_retrieve env self query_str with
  | Ok nodes => nodes
  | Raise _ => []
  end.

(** [retrieve], which the class does not define: the inherited one, run
    on what [_retrieve] returns. *)
Definition retrieve (env : Collaborators) (self : t) (query_str : string)
  : list NodeWithScore :=
  base_retrieve env (_retrieve env self query_str).

End YouRetriever.

(** A request sent to the web collaborator: the query text and the
    requested number of results. *)
Record web_request : Type := {
  wr_query : string;
  wr_num_web_results : Z;
}.

(** ** class HybridRetriever *)
Module HybridRetriever.

Record t : Type := {
  similarity_top_k : Z;
  you_retriever : YouRetriever.t;
}.

(** [__init__]: the vector and BM25 retrievers are built by the index
    (their answers are in [Collaborators]); what can fail here is the
    construction of the web retriever, which is given
    [os.environ.get("YOU_API_KEY")]. *)
Definition __init__ (environ : gmap string string) (similarity_top_k : Z) : result t :=
  you ← YouRetriever.__init__ environ (environ !! "YOU_API_KEY") similarity_top_k;
  mret {| similarity_top_k := similarity_top_k; you_retriever := you |}.

(** The deduplication loop, with its two accumulators. *)
Fixpoint combine (l : list NodeWithScore) (all_nodes : list NodeWithScore)
    (node_ids : gset string) : list NodeWithScore :=
  match l with
  | [] => all_nodes
  | n :: l' =>
      if decide (node_id (node n) ∈ node_ids)
      then combine l' all_nodes node_ids
      else combine l' (all_nodes ++ [n]) ({[ node_id (node n) ]} ∪ node_ids)
  end.

(** The nodes of the web source for this call, and the requests sent. *)
Definition you_nodes (env : Collaborators) (self : t) (query_str : string)
    (is_avoid_query : bool) : list NodeWithScore * list web_request :=
  if negb is_avoid_query
  then (YouRetriever.retrieve env (you_retriever self) query_str,
        [ {| wr_query := YouRetriever.query_param query_str;
             wr_num_web_results := YouRetriever.similarity_top_k (you_retriever self) |} ])
  else ([], []).

(** [_retrieve(query, is_avoid_query=...)]: the fused list, and the
    requests that went to the web collaborator. *)
Definition _retrieve (env : Collaborators) (self : t) (query_str : string)
    (is_avoid_query : bool) : list NodeWithScore * list web_request :=
  let bm25_nodes := bm25_retrieve env (similarity_top_k self) query_str in
  let vector_nodes := vector_retrieve env (similarity_top_k self) query_str in
  let you := you_nodes env self query_str is_avoid_query in
  (combine (bm25_nodes ++ vector_nodes ++ fst you) [] ∅, snd you).

(** [retrieve(str_or_query_bundle, **kwargs)]: [_retrieve] wrapped in the
    callback manager's events, which do not touch the nodes. *)
Definition retrieve (env : Collaborators) (self : t) (query_str : string)
    (is_avoid_query : bool) : list NodeWithScore * list web_request :=
  _retrieve env self query_str is_avoid_query.

End HybridRetriever.

(** ** class RetrieverConfig *)
Module RetrieverConfig.

Record t : Type := {
  top_k : Z;
  similarity_top_k : Z;
  language : string;
}.

End RetrieverConfig.

(** ** class WandbRetrieverQueryEngine *)
Module WandbRetrieverQueryEngine.

(** The three kinds of post-processor an engine is built with. *)
Inductive postprocessor : Type :=
| Metadata (p : MetadataPostprocessor.t)
| LanguageFilter (p : LanguageFilterPostprocessor.t)
| CohereRerank (top_n : Z) (model : string).

Record t : Type := {
  _retriever : HybridRetriever.t;
  _node_postprocessors : list postprocessor;
}.

Definition postprocess_nodes (env : Collaborators) (query_str : string)
    (p : postprocessor) (nodes : list NodeWithScore) : result (list NodeWithScore) :=
  match p with
  | Metadata p => MetadataPostprocessor._postprocess_nodes env p nodes
  | LanguageFilter p => LanguageFilterPostprocessor._postprocess_nodes p nodes
  | CohereRerank top_n model => cohere_rerank env model top_n query_str nodes
  end.

(** Each post-processor in turn. *)
Fixpoint _apply_node_postprocessors (env : Collaborators) (query_str : string)
    (ps : list postprocessor) (nodes : list NodeWithScore)
  : result (list NodeWithScore) :=
  match ps with
  | [] => mret nodes
  | p :: ps' =>
      nodes' ← postprocess_nodes env query_str p nodes;
      _apply_node_postprocessors env query_str ps' nodes'
  end.

Definition retrieve (env : Collaborators) (self : t) (query_str : string)
    (is_avoid_query : bool) : result (list NodeWithScore) * list web_request :=
  let r := HybridRetriever.retrieve env (_retriever self) query_str is_avoid_query in
  (_apply_node_postprocessors env query_str (_node_postprocessors self) (fst r), snd r).

End WandbRetrieverQueryEngine.

(** ** class Retriever *)
Module Retriever.

Record t : Type := {
  config : RetrieverConfig.t;
  _retriever : HybridRetriever.t;
  is_avoid_query : option bool;
}.

(** One entry of the list [retrieve] returns. *)
Record output : Type := {
  out_text : string;
  out_metadata : gmap string json;
  out_score : float;
}.

Definition set_is_avoid_query (self : t) (v : option bool) : t :=
  {| config := config self; _retriever := _retriever self; is_avoid_query := v |}.

Definition load_query_engine (self : t) (top_k : option Z) (language : option string)
    (include_tags exclude_tags : option (list string)) (is_avoid_query : option bool)
  : WandbRetrieverQueryEngine.t * t :=
  let top_k := or_int top_k (RetrieverConfig.top_k (config self)) in
  let language := or_str language (RetrieverConfig.language (config self)) in
  let self' := match is_avoid_query with
               | Some b => set_is_avoid_query self (Some b)
               | None => self
               end in
  let node_postprocessors :=
    [ WandbRetrieverQueryEngine.Metadata
        {| MetadataPostprocessor.include_tags := include_tags;
           MetadataPostprocessor.exclude_tags := exclude_tags;
           MetadataPostprocessor.min_result_size := top_k |};
      WandbRetrieverQueryEngine.LanguageFilter
        {| LanguageFilterPostprocessor.languages := [language; "python"];
           LanguageFilterPostprocessor.min_result_size := top_k |};
      if String.eqb language "en"
      then WandbRetrieverQueryEngine.CohereRerank top_k "rerank-english-v2.0"
      else WandbRetrieverQueryEngine.CohereRerank top_k "rerank-multilingual-v2.0" ] in
  ({| WandbRetrieverQueryEngine._retriever := _retriever self;
      WandbRetrieverQueryEngine._node_postprocessors := node_postprocessors |}, self').

Definition project (n : NodeWithScore) : output :=
  {| out_text := get_text n;
     out_metadata := metadata (node n);
     out_score := get_score n |}.

(** [retrieve]: the value returned or the exception raised, the
    session afterwards, and the requests sent to the web collaborator. *)
Definition retrieve (env : Collaborators) (self : t) (query : string)
    (language : option string) (top_k : option Z)
    (include_tags exclude_tags : option (list string))
    (is_avoid_query : option bool)
  : result (list output) * t * list web_request :=
  let top_k := or_int top_k (RetrieverConfig.top_k (config self)) in
  let language := or_str language (RetrieverConfig.language (config self)) in
  let '(retrieval_engine, self1) :=
    load_query_engine self (Some top_k) (Some language) include_tags exclude_tags None in
  let avoid_query := or_bool (Retriever.is_avoid_query self1) is_avoid_query in
  let '(results, sent) :=
    WandbRetrieverQueryEngine.retrieve env retrieval_engine query (truth avoid_query) in
  match results with
  | Raise e => (Raise e, self1, sent)
  | Ok results => (Ok (project <$> results), set_is_avoid_query self1 None, sent)
  end.

(** [__call__] *)
Definition __call__ (env : Collaborators) (self : t) (query : string)
    (language : option string) (top_k : option Z)
    (include_tags exclude_tags : option (list string))
    (is_avoid_query : option bool)
  : result (list output) * t * list web_request :=
  let '(r, self', sent) :=
    retrieve env self query language top_k include_tags exclude_tags is_avoid_query in
  match r with
  | Raise e => (Raise e, self', sent)
  | Ok retrievals =>
      match retrievals with
      | [] => (Raise IndexError, self', sent)
      | _ :: _ => (Ok retrievals, self', sent)
      end
  end.

End Retriever.

(** * Specification-level notions *)

(** A candidate's tags, as the list of strings under ["tags"]. *)
Definition node_tags (n : NodeWithScore) : list string :=
  match metadata (node n) !! "tags" with
  | Some (JArr items) =>
      omap (fun v => match v with JStr s => Some s | _ => None end) items
  | _ => []
  end.

(** The candidate carries a list of strings under ["tags"]. *)
Definition well_tagged (n : NodeWithScore) : Prop :=
  metadata (node n) !! "tags" = Some (JArr (JStr <$> node_tags n)).

(** The candidate carries some value under ["language"]. *)
Definition has_language (n : NodeWithScore) : Prop :=
  is_Some (metadata (node n) !! "language").

(** Tags are compared lower-cased and trimmed. *)
Definition normalize_tag (tag : string) : string := strip (lower tag).

Definition tag_set (tags : list string) : gset string :=
  list_to_set (normalize_tag <$> tags).

(** A tag set that is unset, or set to the empty list. *)
Definition unset_or_empty (o : option (list string)) : Prop :=
  o = None ∨ o = Some [].

(** The tag policy in the words of the specification: the include set
    is empty or contained in the candidate's tags, and the exclude set
    is empty or not contained in them. *)
Definition tag_policy (include_tags exclude_tags : option (list string))
    (n : NodeWithScore) : Prop :=
  (unset_or_empty include_tags
   ∨ tag_set (default [] include_tags) ⊆ tag_set (node_tags n))
  ∧ (unset_or_empty exclude_tags
     ∨ ¬ tag_set (default [] exclude_tags) ⊆ tag_set (node_tags n)).

#[global] Instance unset_or_empty_dec o : Decision (unset_or_empty o).
Proof. unfold unset_or_empty. apply _. Defined.

#[global] Instance tag_policy_dec i e n : Decision (tag_policy i e n).
Proof. unfold tag_policy. apply _. Defined.

(** The language policy: the candidate's language is a string of the
    acceptable set. *)
Definition language_policy (languages : list string) (n : NodeWithScore) : Prop :=
  match metadata (node n) !! "language" with
  | Some (JStr s) => s ∈ languages
  | _ => False
  end.

#[global] Instance language_policy_dec ls n : Decision (language_policy ls n).
Proof. unfold language_policy. destruct (metadata (node n) !! "language") as [[]|]; apply _. Defined.

(** Stage A followed by Stage B, as the query engine chains them. *)
Definition stage_A_then_B (env : Collaborators)
    (a : MetadataPostprocessor.t) (b : LanguageFilterPostprocessor.t)
    (nodes : list NodeWithScore) : result (list NodeWithScore) :=
  WandbRetrieverQueryEngine._apply_node_postprocessors env ""
    [WandbRetrieverQueryEngine.Metadata a; WandbRetrieverQueryEngine.LanguageFilter b] nodes.

(** The identity of a candidate. *)
Definition ident (n : NodeWithScore) : string := node_id (node n).

(** The first candidate of a list that has the given identity. *)
Definition first_with (i : string) (l : list NodeWithScore) : option NodeWithScore :=
  List.find (fun n => bool_decide (ident n = i)) l.

(** First-occurrence-wins deduplication in the words of the
    specification: a candidate is admitted unless its identity was
    admitted before ([seen]). *)
Fixpoint first_occurrences (seen : gset string) (l : list NodeWithScore)
  : list NodeWithScore :=
  match l with
  | [] => []
  | n :: l' =>
      if decide (ident n ∈ seen)
      then first_occurrences seen l'
      else n :: first_occurrences ({[ ident n ]} ∪ seen) l'
  end.

(** The snippets of a hit, when they are a list of strings. *)
Definition hit_snippets (hit : json) : list string :=
  match getitem hit "snippets" with
  | Ok (JArr items) => omap (fun v => match v with JStr s => Some s | _ => None end) items
  | _ => []
  end.

(** A hit as the web collaborator's contract describes it: a dict with a
    url, a title, a description and a list of snippet strings. *)
Definition well_formed_hit (hit : json) : Prop :=
  getitem hit "snippets" = Ok (JArr (JStr <$> hit_snippets hit))
  ∧ is_Ok (getitem hit "url")
  ∧ is_Ok (getitem hit "description")
  ∧ is_Ok (getitem hit "title").

(** Hits the retriever cannot process. *)
Inductive malformed_hit (hit : json) : Prop :=
| hit_lacks_key (key : string) :
    key ∈ ["snippets"; "url"; "description"; "title"] →
    (∃ e, getitem hit key = Raise e) → malformed_hit hit
| hit_snippets_not_iterable (v : json) :
    getitem hit "snippets" = Ok v → (∃ e, iter v = Raise e) → malformed_hit hit.

(** Payloads the retriever cannot process: no ["hits"] entry (or not a
    dict at all), hits that cannot be iterated, or a malformed hit. *)
Inductive malformed (results : json) : Prop :=
| payload_lacks_hits :
    (∃ e, getitem results "hits" = Raise e) → malformed results
| payload_hits_not_iterable (v : json) :
    getitem results "hits" = Ok v → (∃ e, iter v = Raise e) → malformed results
| payload_malformed_hit (v : json) (hits : list json) (hit : json) :
    getitem results "hits" = Ok v → iter v = Ok hits →
    hit ∈ hits → malformed_hit hit → malformed results.

(** The ways a call to the web collaborator fails: the request raises,
    the status is not 200, the body is not JSON, the payload is
    malformed, or anything else raises while the payload is processed. *)
Inductive web_call_fails (env : Collaborators) (self : YouRetriever.t)
    (query_str : string) : Prop :=
| fails_raising (e : exn) :
    YouRetriever.send env self query_str = HttpRaises e →
    web_call_fails env self query_str
| fails_status (status_code : Z) (json_body : result json) :
    YouRetriever.send env self query_str = HttpResponse status_code json_body →
    status_code ≠ 200 →
    web_call_fails env self query_str
| fails_not_json (e : exn) :
    YouRetriever.send env self query_str = HttpResponse 200 (Raise e) →
    web_call_fails env self query_str
| fails_malformed (results : json) :
    YouRetriever.send env self query_str = HttpResponse 200 (Ok results) →
    malformed results →
    web_call_fails env self query_str
| fails_processing (results : json) (e : exn) :
    YouRetriever.send env self query_str = HttpResponse 200 (Ok results) →
    YouRetriever.nodes_of_results env results = Raise e →
    web_call_fails env self query_str.

(** What the loop over a hit's snippets goes through: the items of a
    list, the characters of a string, the keys of a dict. *)
Definition snippet_items (hit : json) : list json :=
  match getitem hit "snippets" ≫= iter with
  | Ok items => items
  | Raise _ => []
  end.

(** * Sample data, used by the examples below *)
Module Sample.

(** An indexed passage with the given identity, language and tags. *)
Definition passage (id lang : string) (tags : list string) (s : float) : NodeWithScore :=
  {| node := {| node_id := id;
                text := "text of " ++ id;
                metadata := <["language" := JStr lang]>
                            (<["tags" := JArr (JStr <$> tags)]> ∅) |};
     score := Some s |}.

(** A sentinel in the shape the web source gives its own nodes. *)
Definition sentinel : NodeWithScore :=
  {| node := {| node_id := "sentinel";
                text := "No results found";
                metadata := <["source" := JStr "no-result"]>
                            (<["language" := JStr "en"]>
                            (<["tags" := JArr [JStr "no-result"]]> ∅)) |};
     score := Some 0%float |}.

(** Only strings are accepted as the text of a node. *)
Definition only_str (v : json) : result string :=
  match v with
  | JStr s => Ok s
  | _ => Raise ValidationError
  end.

(** A re-ranker that keeps the first [top_n] nodes. *)
Definition rerank_prefix (model : string) (top_n : Z) (query : string)
    (nodes : list NodeWithScore) : result (list NodeWithScore) :=
  Ok (take (Z.to_nat top_n) nodes).

(** Collaborators answering every query with the given lexical and
    vector results and the given outcome of the web request; the
    inherited [retrieve] lets every node through. *)
Definition env (bm25 vector : list NodeWithScore) (web : http_outcome) : Collaborators :=
  {| bm25_retrieve := fun _ _ => bm25;
     vector_retrieve := fun _ _ => vector;
     requests_get := fun _ _ _ _ => web;
     uuid4 := fun i => String.append "web-" (pretty i);
     validate_text := only_str;
     base_retrieve := fun nodes => nodes;
     base_retrieve_sublist := fun nodes => reflexivity nodes;
     create_no_result_dummy_node := sentinel;
     cohere_rerank := rerank_prefix |}.

(** An inherited [retrieve] that leaves out the nodes whose text was
    already seen, as the library does with the repeated snippets of one
    page. *)
Fixpoint drop_repeated_text (seen : gset string) (nodes : list NodeWithScore)
  : list NodeWithScore :=
  match nodes with
  | [] => []
  | n :: rest =>
      if decide (text (node n) ∈ seen)
      then drop_repeated_text seen rest
      else n :: drop_repeated_text ({[ text (node n) ]} ∪ seen) rest
  end.

Definition drop_repeated_text_sublist (seen : gset string) (nodes : list NodeWithScore)
  : drop_repeated_text seen nodes `sublist_of` nodes.
Proof.
  revert seen. induction nodes as [|n rest IH]; intros seen; simpl; [constructor|].
  destruct (decide (text (node n) ∈ seen)); [by apply sublist_cons|by apply sublist_skip].
Defined.

(** The same collaborators, with that [retrieve]. *)
Definition env_dropping_repeats (bm25 vector : list NodeWithScore) (web : http_outcome)
  : Collaborators :=
  {| bm25_retrieve := fun _ _ => bm25;
     vector_retrieve := fun _ _ => vector;
     requests_get := fun _ _ _ _ => web;
     uuid4 := fun i => String.append "web-" (pretty i);
     validate_text := only_str;
     base_retrieve := drop_repeated_text ∅;
     base_retrieve_sublist := drop_repeated_text_sublist ∅;
     create_no_result_dummy_node := sentinel;
     cohere_rerank := rerank_prefix |}.

(** A web page with the given snippets. *)
Definition hit (page : string) (snippets : list string) : json :=
  JObj [("url", JStr page); ("title", JStr "title"); ("description", JStr "description");
        ("snippets", JArr (JStr <$> snippets))].

Definition response (hits : list json) : http_outcome :=
  HttpResponse 200 (Ok (JObj [("hits", JArr hits)])).

Definition outage : http_outcome := HttpResponse 503 (Raise JSONDecodeError).

Definition abc : NodeWithScore := passage "abc" "en" ["a"; "b"; "c"] 1%float.
Definition ab : NodeWithScore := passage "ab" "en" [" A"; "B "] 2%float.
Definition cd : NodeWithScore := passage "cd" "fr" ["c"; "d"] 3%float.

Definition you : YouRetriever.t :=
  {| YouRetriever._api_key := "key"; YouRetriever.similarity_top_k := 10 |}.

Definition hybrid : HybridRetriever.t :=
  {| HybridRetriever.similarity_top_k := 10; HybridRetriever.you_retriever := you |}.

(** A session with the given stored flag. *)
Definition session (flag : option bool) : Retriever.t :=
  {| Retriever.config := {| RetrieverConfig.top_k := 2;
                            RetrieverConfig.similarity_top_k := 10;
                            RetrieverConfig.language := "en" |};
     Retriever._retriever := hybrid;
     Retriever.is_avoid_query := flag |}.

End Sample.

(** * Theorems *)

(** ** The filtering loop *)

Lemma filter_loop_filter {A} (cond : A → result bool) (P : A → Prop)
    `{!∀ x, Decision (P x)} (l acc : list A) :
  Forall (fun x => cond x = Ok (bool_decide (P x))) l →
  filter_loop cond l acc = Ok (acc ++ filter P l).
Proof.
  intros Hl. revert acc.
  induction Hl as [|x l Hx _ IH]; intros acc; simpl.
  - by rewrite app_nil_r.
  - rewrite Hx. simpl. rewrite IH, filter_cons.
    destruct (decide (P x)) as [HP|HP].
    + rewrite bool_decide_eq_true_2 by done. by rewrite <- app_assoc.
    + by rewrite bool_decide_eq_false_2 by done.
Qed.

Lemma len_app {A} (l k : list A) : len (l ++ k) = len l + len k.
Proof. unfold len. rewrite length_app. lia. Qed.

Lemma len_repeat_list {A} (x : A) (k : Z) : len (repeat_list x k) = Z.max 0 k.
Proof. unfold len, repeat_list. rewrite length_replicate. lia. Qed.

(** ** Stage A: the tag policy filter *)

Lemma mapM_normalize (tags : list string) :
  mapM MetadataPostprocessor.normalize (JStr <$> tags) = Ok (normalize_tag <$> tags).
Proof.
  induction tags as [|tag tags IH]; [done|].
  cbn [fmap list_fmap mapM]. by rewrite IH.
Qed.

Lemma normalized_tags_well_tagged n :
  well_tagged n →
  MetadataPostprocessor.normalized_tags n = Ok (normalize_tag <$> node_tags n).
Proof.
  intros Hn. unfold MetadataPostprocessor.normalized_tags, lookup_key.
  rewrite Hn. simpl. apply mapM_normalize.
Qed.

Lemma nonempty_false o : nonempty o = false ↔ unset_or_empty o.
Proof.
  unfold unset_or_empty. destruct o as [[|x l]|]; simpl; split; intros H;
    try done; try (by left); try (by right); by destruct H.
Qed.

Lemma nonempty_true o : nonempty o = true ↔ ¬ unset_or_empty o.
Proof.
  rewrite <- nonempty_false. by destruct (nonempty o).
Qed.

(** The loop body decides exactly the tag policy. *)
Lemma keeps_tag_policy self n :
  well_tagged n →
  MetadataPostprocessor.keeps self n =
  Ok (bool_decide (tag_policy (MetadataPostprocessor.include_tags self)
                              (MetadataPostprocessor.exclude_tags self) n)).
Proof.
  intros Hn. unfold MetadataPostprocessor.keeps.
  rewrite (normalized_tags_well_tagged n Hn). simpl.
  unfold issubset, tag_policy.
  fold (normalize_tag). 
  change (list_to_set (normalize_tag <$> ?l)) with (tag_set l).
  set (inc := MetadataPostprocessor.include_tags self).
  set (exc := MetadataPostprocessor.exclude_tags self).
  destruct (nonempty inc) eqn:Hi, (nonempty exc) eqn:He; simpl;
    try apply nonempty_true in Hi; try apply nonempty_false in Hi;
    try apply nonempty_true in He; try apply nonempty_false in He;
    repeat case_bool_decide; simpl; try done; exfalso; tauto.
Qed.

(** *** Tag normalisation *)

Lemma is_space_lower_char c : is_space (lower_char c) = is_space c.
Proof. by destruct c as [[] [] [] [] [] [] [] []]. Qed.

Lemma lower_char_idemp c : lower_char (lower_char c) = lower_char c.
Proof. by destruct c as [[] [] [] [] [] [] [] []]. Qed.

Lemma lower_idemp s : lower (lower s) = lower s.
Proof.
  induction s as [|c s IH]; [done|].
  cbn [lower]. by rewrite lower_char_idemp, IH.
Qed.

Lemma lower_lstrip s : lower (lstrip s) = lstrip (lower s).
Proof.
  induction s as [|c s IH]; [done|].
  cbn [lower lstrip]. rewrite is_space_lower_char.
  by destruct (is_space c).
Qed.

Lemma lower_rstrip s : lower (rstrip s) = rstrip (lower s).
Proof.
  induction s as [|c s IH]; [done|].
  cbn [lower rstrip]. rewrite <- IH, is_space_lower_char.
  destruct (rstrip s) as [|c' r]; cbn [lower]; [|done].
  by destruct (is_space c).
Qed.

Lemma lower_strip s : lower (strip s) = strip (lower s).
Proof. unfold strip. by rewrite lower_rstrip, lower_lstrip. Qed.

(** Tags that differ only in case, or only in the whitespace around
    them, normalise to the same tag. *)
Lemma normalize_tag_insensitive t1 t2 :
  lower t1 = lower t2 ∨ strip t1 = strip t2 → normalize_tag t1 = normalize_tag t2.
Proof.
  unfold normalize_tag. intros [H|H].
  - by rewrite H.
  - by rewrite <- !lower_strip, H.
Qed.

Lemma rstrip_app_space s c :
  is_space c = true → rstrip (s +:+ String c EmptyString) = rstrip s.
Proof.
  intros Hc. induction s as [|a s IH].
  - change (rstrip (String c EmptyString) = EmptyString).
    cbn [rstrip]. by rewrite Hc.
  - change (rstrip (String a (s +:+ String c EmptyString)) = rstrip (String a s)).
    cbn [rstrip]. by rewrite IH.
Qed.

(** Whitespace before or after a tag is ignored. *)
Lemma strip_surrounding_space s c :
  is_space c = true →
  strip (String c s) = strip s ∧ strip (s +:+ String c EmptyString) = strip s.
Proof.
  intros Hc. unfold strip. split.
  - cbn [lstrip]. by rewrite Hc.
  - induction s as [|a s IH].
    + change (rstrip (lstrip (String c EmptyString)) = rstrip (lstrip EmptyString)).
      cbn [lstrip]. by rewrite Hc.
    + change (rstrip (lstrip (String a (s +:+ String c EmptyString)))
              = rstrip (lstrip (String a s))).
      cbn [lstrip]. destruct (is_space a); [done|].
      by apply (rstrip_app_space (String a s)).
Qed.

Example normalize_tag_example : normalize_tag "  Foo Bar " = "foo bar".
Proof. reflexivity. Qed.

(** With a tag set in force, Stage A returns the candidates that satisfy
    the tag policy, then as many sentinels as the minimum size asks for. *)
Lemma metadata_postprocess_active env self nodes :
  let survivors := filter (tag_policy (MetadataPostprocessor.include_tags self)
                                      (MetadataPostprocessor.exclude_tags self)) nodes in
  ¬ (unset_or_empty (MetadataPostprocessor.include_tags self)
     ∧ unset_or_empty (MetadataPostprocessor.exclude_tags self)) →
  Forall well_tagged nodes →
  MetadataPostprocessor._postprocess_nodes env self nodes =
  Ok (survivors ++ repeat_list (create_no_result_dummy_node env)
                     (MetadataPostprocessor.min_result_size self - len survivors)).
Proof.
  intros survivors Hactive Hnodes. unfold MetadataPostprocessor._postprocess_nodes.
  destruct (negb (nonempty _) && negb (nonempty _)) eqn:Hguard.
  { apply andb_true_iff in Hguard as [Hi He].
    apply negb_true_iff, nonempty_false in Hi.
    apply negb_true_iff, nonempty_false in He. tauto. }
  rewrite (filter_loop_filter _ (tag_policy (MetadataPostprocessor.include_tags self)
                                            (MetadataPostprocessor.exclude_tags self))).
  2:{ eapply Forall_impl; [exact Hnodes|]. intros n Hn. by apply keeps_tag_policy. }
  cbn [mbind result_bind app]. fold survivors.
  destruct (Z.ltb_spec (len survivors) (MetadataPostprocessor.min_result_size self)) as [Hlt|Hge].
  - done.
  - unfold repeat_list.
    replace (Z.to_nat _) with 0%nat by lia. by rewrite app_nil_r.
Qed.

Lemma tag_policy_inactive i e n :
  unset_or_empty i → unset_or_empty e → tag_policy i e n.
Proof. intros Hi He. split; by left. Qed.

(** C4. Stage A keeps a candidate exactly when the tag policy holds of
    it: the include set is unset or empty, or contained in the
    candidate's tags, and the exclude set is unset or empty, or not
    contained in them, tags being compared lower-cased and trimmed.
    Tags that differ only in case or in surrounding whitespace are the
    same tag.  With both tag sets unset or empty the stage returns its
    input as it is (every candidate then satisfies the policy);
    otherwise it returns the candidates satisfying the policy, in
    order, followed only by sentinels. *)
Theorem tag_policy_filter env self nodes :
  let include_tags := MetadataPostprocessor.include_tags self in
  let exclude_tags := MetadataPostprocessor.exclude_tags self in
  let survivors := filter (tag_policy include_tags exclude_tags) nodes in
  (unset_or_empty include_tags ∧ unset_or_empty exclude_tags →
   MetadataPostprocessor._postprocess_nodes env self nodes = Ok nodes
   ∧ survivors = nodes)
  ∧ (¬ (unset_or_empty include_tags ∧ unset_or_empty exclude_tags) →
     Forall well_tagged nodes →
     MetadataPostprocessor._postprocess_nodes env self nodes =
     Ok (survivors ++ repeat_list (create_no_result_dummy_node env)
                        (MetadataPostprocessor.min_result_size self - len survivors)))
  ∧ (∀ n, tag_policy include_tags exclude_tags n ↔
          (unset_or_empty include_tags
           ∨ tag_set (default [] include_tags) ⊆ tag_set (node_tags n))
          ∧ (unset_or_empty exclude_tags
             ∨ ¬ tag_set (default [] exclude_tags) ⊆ tag_set (node_tags n)))
  ∧ (∀ tags, tag_set tags = list_to_set ((fun tag => strip (lower tag)) <$> tags))
  ∧ (∀ t1 t2, lower t1 = lower t2 ∨ strip t1 = strip t2 →
              strip (lower t1) = strip (lower t2)).
Proof.
  intros include_tags exclude_tags survivors. split; [|split; [|split; [|split]]].
  - intros [Hi He]. split.
    + unfold MetadataPostprocessor._postprocess_nodes.
      apply nonempty_false in Hi. apply nonempty_false in He.
      fold include_tags exclude_tags. by rewrite Hi, He.
    + unfold survivors. induction nodes as [|n nodes IH]; [done|].
      rewrite filter_cons_True by by apply tag_policy_inactive.
      by rewrite IH.
  - apply metadata_postprocess_active.
  - done.
  - done.
  - apply normalize_tag_insensitive.
Qed.

(** The two cases of the specification's example: tags {a, b, c}
    against the exclude sets {a, b} and {a, d}; and a candidate tagged
    [" A"] and ["B "] against the exclude set {a, b}. *)
Lemma tag_policy_filter_witness :
  let self := {| MetadataPostprocessor.min_result_size := 2;
                 MetadataPostprocessor.include_tags := None;
                 MetadataPostprocessor.exclude_tags := Some ["a"; "b"] |} in
  let self' := {| MetadataPostprocessor.min_result_size := 2;
                  MetadataPostprocessor.include_tags := None;
                  MetadataPostprocessor.exclude_tags := Some ["a"; "D"] |} in
  let env := Sample.env [] [] Sample.outage in
  MetadataPostprocessor._postprocess_nodes env self [Sample.abc; Sample.ab; Sample.cd]
  = Ok [Sample.cd; Sample.sentinel]
  ∧ MetadataPostprocessor._postprocess_nodes env self' [Sample.abc; Sample.ab; Sample.cd]
    = Ok [Sample.abc; Sample.ab; Sample.cd].
Proof.
  intros self self' env. split.
  - rewrite (proj1 (proj2 (tag_policy_filter env self [Sample.abc; Sample.ab; Sample.cd]))).
    + vm_compute. reflexivity.
    + intros [_ [H|H]]; discriminate H.
    + repeat constructor.
  - rewrite (proj1 (proj2 (tag_policy_filter env self' [Sample.abc; Sample.ab; Sample.cd]))).
    + vm_compute. reflexivity.
    + intros [_ [H|H]]; discriminate H.
    + repeat constructor.
Defined.

(** C5. When a tag set is in force and fewer than N candidates satisfy
    the tag policy, Stage A returns exactly N entries: the surviving
    candidates in their original order, then sentinels up to N. *)
Theorem minimum_size_padding env self nodes :
  let survivors := filter (tag_policy (MetadataPostprocessor.include_tags self)
                                      (MetadataPostprocessor.exclude_tags self)) nodes in
  let N := MetadataPostprocessor.min_result_size self in
  ¬ (unset_or_empty (MetadataPostprocessor.include_tags self)
     ∧ unset_or_empty (MetadataPostprocessor.exclude_tags self)) →
  Forall well_tagged nodes →
  len survivors < N →
  ∃ out,
    MetadataPostprocessor._postprocess_nodes env self nodes = Ok out
    ∧ len out = N
    ∧ out = survivors
            ++ replicate (Z.to_nat (N - len survivors)) (create_no_result_dummy_node env)
    ∧ take (length survivors) out = survivors
    ∧ survivors `sublist_of` nodes.
Proof.
  intros survivors N Hactive Hnodes Hlt.
  eexists. split; [by apply metadata_postprocess_active|].
  fold survivors N. split; [|split; [|split]].
  - rewrite len_app, len_repeat_list. lia.
  - done.
  - by rewrite take_app_length.
  - apply sublist_filter.
Qed.

(** The specification's example: N = 10 and three survivors. *)
Lemma minimum_size_padding_witness :
  let self := {| MetadataPostprocessor.min_result_size := 10;
                 MetadataPostprocessor.include_tags := Some ["C "];
                 MetadataPostprocessor.exclude_tags := None |} in
  let env := Sample.env [] [] Sample.outage in
  let x := Sample.passage "x" "en" ["c"; "x"] 1%float in
  ∃ out,
    MetadataPostprocessor._postprocess_nodes env self [Sample.abc; Sample.ab; Sample.cd; x]
    = Ok out
    ∧ out = [Sample.abc; Sample.cd; x] ++ replicate 7 Sample.sentinel.
Proof.
  intros self env x.
  destruct (minimum_size_padding env self [Sample.abc; Sample.ab; Sample.cd; x])
    as (out & Hout & _ & Heq & _).
  - intros [[H|H] _]; discriminate H.
  - repeat constructor.
  - vm_compute. reflexivity.
  - exists out. split; [exact Hout|]. rewrite Heq. vm_compute. reflexivity.
Defined.

(** ** Stage B: the language policy filter *)

Lemma language_in_policy self n :
  has_language n →
  LanguageFilterPostprocessor.language_in self n =
  Ok (bool_decide (language_policy (LanguageFilterPostprocessor.languages self) n)).
Proof.
  intros [v Hv].
  assert (language_policy (LanguageFilterPostprocessor.languages self) n ↔
          match v with
          | JStr s => s ∈ LanguageFilterPostprocessor.languages self
          | _ => False
          end) as Hpol.
  { unfold language_policy. by rewrite Hv. }
  unfold LanguageFilterPostprocessor.language_in, lookup_key.
  rewrite Hv. cbn [mbind result_bind mret result_ret]. f_equal.
  destruct v; repeat case_bool_decide; tauto.
Qed.

(** Stage B returns the matches when there are at least N of them, and
    otherwise the matches followed by a prefix of its input. *)
Lemma language_postprocess self nodes :
  let matches := filter (language_policy (LanguageFilterPostprocessor.languages self)) nodes in
  let N := LanguageFilterPostprocessor.min_result_size self in
  Forall has_language nodes →
  LanguageFilterPostprocessor._postprocess_nodes self nodes =
  Ok (if decide (len matches < N)
      then matches ++ take (Z.to_nat (N - len matches)) nodes
      else matches).
Proof.
  intros matches N Hnodes. unfold LanguageFilterPostprocessor._postprocess_nodes.
  rewrite (filter_loop_filter _ (language_policy (LanguageFilterPostprocessor.languages self))).
  2:{ eapply Forall_impl; [exact Hnodes|]. intros n Hn. by apply language_in_policy. }
  cbn [mbind result_bind app]. fold matches N.
  destruct (Z.ltb_spec (len matches) N) as [Hlt|Hge].
  - rewrite decide_True by done. unfold slice_to.
    destruct (Z.ltb_spec (N - len matches) 0); [lia|done].
  - by rewrite decide_False by lia.
Qed.

Lemma language_postprocess_len self nodes out :
  let matches := filter (language_policy (LanguageFilterPostprocessor.languages self)) nodes in
  let N := LanguageFilterPostprocessor.min_result_size self in
  Forall has_language nodes →
  LanguageFilterPostprocessor._postprocess_nodes self nodes = Ok out →
  len out = if decide (len matches < N)
            then len matches + Z.min (N - len matches) (len nodes)
            else len matches.
Proof.
  intros matches N Hnodes Hout.
  rewrite language_postprocess in Hout by done. fold matches N in Hout.
  injection Hout as <-. destruct (decide (len matches < N)); [|done].
  rewrite len_app. unfold len. rewrite length_take. unfold len in *. lia.
Qed.

(** C6. Stage B returns the candidates whose language is in the
    acceptable set, in their original order; when fewer than N match it
    appends candidates taken from the front of its whole input, until
    the list has N entries or the input is used up.  A matching
    candidate that sits among those leading entries then occurs twice. *)
Theorem language_filter_padding self nodes :
  let matches := filter (language_policy (LanguageFilterPostprocessor.languages self)) nodes in
  let N := LanguageFilterPostprocessor.min_result_size self in
  Forall has_language nodes →
  ∃ out,
    LanguageFilterPostprocessor._postprocess_nodes self nodes = Ok out
    ∧ matches `sublist_of` nodes
    ∧ (∀ n, n ∈ matches ↔
            n ∈ nodes ∧ language_policy (LanguageFilterPostprocessor.languages self) n)
    ∧ (N <= len matches → out = matches)
    ∧ (len matches < N →
       out = matches ++ take (Z.to_nat (N - len matches)) nodes
       ∧ len out = Z.min N (len matches + len nodes)
       ∧ ∀ n, n ∈ matches → n ∈ take (Z.to_nat (N - len matches)) nodes →
              ∃ i j, (i < j)%nat ∧ out !! i = Some n ∧ out !! j = Some n).
Proof.
  intros matches N Hnodes. eexists. split; [by apply language_postprocess|].
  fold matches N. split; [apply sublist_filter|]. split.
  { intros n. unfold matches. rewrite list_elem_of_filter. tauto. }
  split.
  - intros Hge. by rewrite decide_False by lia.
  - intros Hlt. rewrite decide_True by done. split; [done|]. split.
    + rewrite len_app. unfold len. rewrite length_take. unfold len in *. lia.
    + intros n Hm Hp.
      apply list_elem_of_lookup in Hm as [i Hi].
      apply list_elem_of_lookup in Hp as [j Hj].
      exists i, (length matches + j)%nat. split; [|split].
      * apply lookup_lt_Some in Hi. lia.
      * by apply lookup_app_l_Some.
      * rewrite lookup_app_r by lia.
        by replace (length matches + j - length matches)%nat with j by lia.
Qed.

(** The specification's example: N = 5, language "fr", eight candidates
    of which only the third is French; that candidate comes out twice. *)
Lemma language_filter_padding_witness :
  let self := {| LanguageFilterPostprocessor.languages := ["fr"; "python"];
                 LanguageFilterPostprocessor.min_result_size := 5 |} in
  let en i := Sample.passage i "en" [] 1%float in
  let fr := Sample.passage "3" "fr" [] 1%float in
  let nodes := [en "1"; en "2"; fr; en "4"; en "5"; en "6"; en "7"; en "8"] in
  LanguageFilterPostprocessor._postprocess_nodes self nodes
  = Ok [fr; en "1"; en "2"; fr; en "4"].
Proof.
  intros self en fr nodes.
  destruct (language_filter_padding self nodes) as (out & Hout & _ & _ & _ & Hpad).
  - repeat constructor; by eexists.
  - rewrite Hout. destruct Hpad as (-> & _).
    + vm_compute. reflexivity.
    + vm_compute. reflexivity.
Defined.

(** ** Stage A followed by Stage B *)

Lemma stage_A_then_B_unfold env a b nodes :
  stage_A_then_B env a b nodes =
  MetadataPostprocessor._postprocess_nodes env a nodes
  ≫= LanguageFilterPostprocessor._postprocess_nodes b.
Proof.
  unfold stage_A_then_B. cbn.
  destruct (MetadataPostprocessor._postprocess_nodes env a nodes) as [mid|e]; [|done].
  cbn. by destruct (LanguageFilterPostprocessor._postprocess_nodes b mid).
Qed.

(** The size of what leaves Stage B after Stage A.  [mid] is the list
    between the two stages and m the number of its entries that satisfy
    the language policy. *)
Lemma stage_A_then_B_len env a b nodes :
  let N := MetadataPostprocessor.min_result_size a in
  let active := ¬ (unset_or_empty (MetadataPostprocessor.include_tags a)
                   ∧ unset_or_empty (MetadataPostprocessor.exclude_tags a)) in
  LanguageFilterPostprocessor.min_result_size b = N →
  (active → Forall well_tagged nodes) →
  Forall has_language nodes →
  has_language (create_no_result_dummy_node env) →
  ∃ mid out,
    MetadataPostprocessor._postprocess_nodes env a nodes = Ok mid
    ∧ LanguageFilterPostprocessor._postprocess_nodes b mid = Ok out
    ∧ stage_A_then_B env a b nodes = Ok out
    ∧ (active → N <= len mid)
    ∧ (¬ active → mid = nodes)
    ∧ let m := len (filter (language_policy (LanguageFilterPostprocessor.languages b)) mid) in
      len out = if decide (m < N) then m + Z.min (N - m) (len mid) else m.
Proof.
  intros N active HN Htags Hlang Hdummy.
  assert (∃ mid, MetadataPostprocessor._postprocess_nodes env a nodes = Ok mid
                 ∧ Forall has_language mid
                 ∧ (active → N <= len mid) ∧ (¬ active → mid = nodes))
    as (mid & Hmid & Hmidlang & Hge & Hsame).
  { destruct (decide (unset_or_empty (MetadataPostprocessor.include_tags a)
                      ∧ unset_or_empty (MetadataPostprocessor.exclude_tags a)))
      as [Hoff|Hon].
    - exists nodes. split; [|split; [done|split; [by intros H; destruct H|done]]].
      destruct Hoff as [Hi He]. apply nonempty_false in Hi. apply nonempty_false in He.
      unfold MetadataPostprocessor._postprocess_nodes. by rewrite Hi, He.
    - eexists. split; [apply metadata_postprocess_active; [done|by apply Htags]|].
      split; [|split; [|by intros H; destruct H]].
      + apply Forall_app. split.
        * apply Forall_forall. intros n Hn. apply list_elem_of_filter in Hn as [_ Hn].
          by eapply Forall_forall in Hlang.
        * by apply Forall_replicate.
      + intros _. rewrite len_app, len_repeat_list. fold N. lia. }
  pose proof (language_postprocess b mid Hmidlang) as Hout.
  eexists mid, _. split; [done|]. split; [exact Hout|]. split.
  { rewrite stage_A_then_B_unfold, Hmid. exact Hout. }
  split; [done|]. split; [done|].
  cbn zeta. rewrite (language_postprocess_len b mid _ Hmidlang Hout). by rewrite HN.
Qed.

(** C7 does not hold as stated.  With no tag set Stage A pads nothing,
    so an empty fused list stays empty through both stages; and neither
    stage shortens a list in which more than N candidates match. *)
Lemma stage_A_then_B_not_exactly_N :
  let env := Sample.env [] [] Sample.outage in
  let a := {| MetadataPostprocessor.min_result_size := 2;
              MetadataPostprocessor.include_tags := None;
              MetadataPostprocessor.exclude_tags := None |} in
  let b := {| LanguageFilterPostprocessor.languages := ["en"; "python"];
              LanguageFilterPostprocessor.min_result_size := 2 |} in
  let x := Sample.passage "x" "en" [] 1%float in
  (stage_A_then_B env a b [] = Ok [] ∧ len ([] : list NodeWithScore) ≠ 2)
  ∧ (stage_A_then_B env a b [Sample.abc; Sample.ab; x] = Ok [Sample.abc; Sample.ab; x]
     ∧ len [Sample.abc; Sample.ab; x] ≠ 2).
Proof. intros env a b x. repeat split; try (vm_compute; reflexivity); by vm_compute. Qed.

(** C7, amended.  On candidates that carry tags and a language, Stage A
    followed by Stage B returns max(N, m) entries, hence at least N and
    exactly N when at most N entries match the language policy, as soon
    as a tag set is in force or the fused list has at least N
    candidates; m counts the entries of Stage A's output that match the
    language policy.  With both tag sets unset or empty and a fused list
    of L < N candidates it returns m + min(N - m, L) entries. *)
Theorem stage_A_then_B_size env a b nodes :
  let N := MetadataPostprocessor.min_result_size a in
  let active := ¬ (unset_or_empty (MetadataPostprocessor.include_tags a)
                   ∧ unset_or_empty (MetadataPostprocessor.exclude_tags a)) in
  LanguageFilterPostprocessor.min_result_size b = N →
  (active → Forall well_tagged nodes) →
  Forall has_language nodes →
  has_language (create_no_result_dummy_node env) →
  ∃ mid out,
    MetadataPostprocessor._postprocess_nodes env a nodes = Ok mid
    ∧ stage_A_then_B env a b nodes = Ok out
    ∧ let m := len (filter (language_policy (LanguageFilterPostprocessor.languages b)) mid) in
      (active ∨ N <= len nodes →
       len out = Z.max N m ∧ N <= len out ∧ (m <= N → len out = N))
      ∧ (¬ active → len nodes < N →
         mid = nodes ∧ len out = m + Z.min (N - m) (len nodes)).
Proof.
  intros N active HN Htags Hlang Hdummy.
  destruct (stage_A_then_B_len env a b nodes HN Htags Hlang Hdummy)
    as (mid & out & Hmid & _ & Hout & Hge & Hsame & Hlen).
  exists mid, out. split; [done|]. split; [done|].
  cbn zeta in *. fold N in Hge, Hlen |- *.
  set (m := len (filter _ mid)) in *.
  assert (0 <= m <= len mid) as Hm.
  { unfold m, len. pose proof (length_filter
      (language_policy (LanguageFilterPostprocessor.languages b)) mid). lia. }
  split.
  - intros Hcase.
    assert (N <= len mid) as HNmid.
    { destruct (decide active) as [Hon|Hoff]; [by apply Hge|].
      rewrite (Hsame Hoff). by destruct Hcase. }
    rewrite Hlen. clearbody m N. destruct (decide (m < N)); lia.
  - intros Hoff Hshort. specialize (Hsame Hoff). subst mid.
    split; [done|]. rewrite Hlen. clearbody m N. rewrite decide_True by lia. done.
Qed.

(** One candidate survives the tag filter, N = 3: two sentinels are
    added and all three entries are in English. *)
Lemma stage_A_then_B_size_witness :
  let env := Sample.env [] [] Sample.outage in
  let a := {| MetadataPostprocessor.min_result_size := 3;
              MetadataPostprocessor.include_tags := Some ["d"];
              MetadataPostprocessor.exclude_tags := None |} in
  let b := {| LanguageFilterPostprocessor.languages := ["en"; "python"];
              LanguageFilterPostprocessor.min_result_size := 3 |} in
  ∃ out, stage_A_then_B env a b [Sample.abc; Sample.ab; Sample.cd] = Ok out ∧ len out = 3.
Proof.
  intros env a b.
  destruct (stage_A_then_B_size env a b [Sample.abc; Sample.ab; Sample.cd])
    as (mid & out & Hmid & Hout & Hsize & _).
  - reflexivity.
  - intros _. repeat constructor.
  - repeat constructor; by eexists.
  - by eexists.
  - exists out. split; [exact Hout|].
    destruct Hsize as (_ & _ & Hexact).
    + left. intros [[H|H] _]; discriminate H.
    + apply Hexact. vm_compute in Hmid. injection Hmid as <-. by vm_compute.
Defined.

(** ** The fusion retriever *)

Lemma combine_first_occurrences l all_nodes node_ids :
  HybridRetriever.combine l all_nodes node_ids = all_nodes ++ first_occurrences node_ids l.
Proof.
  revert all_nodes node_ids.
  induction l as [|n l IH]; intros all_nodes node_ids; simpl.
  - by rewrite app_nil_r.
  - unfold ident. destruct (decide (node_id (node n) ∈ node_ids)); rewrite IH; [done|].
    by rewrite <- app_assoc.
Qed.

Lemma first_occurrences_sublist seen l : first_occurrences seen l `sublist_of` l.
Proof.
  revert seen. induction l as [|n l IH]; intros seen; simpl; [done|].
  destruct (decide (ident n ∈ seen)).
  - by apply sublist_cons.
  - by apply sublist_skip.
Qed.

Lemma first_occurrences_fresh seen l n :
  n ∈ first_occurrences seen l → ident n ∉ seen.
Proof.
  revert seen. induction l as [|x l IH]; intros seen; simpl.
  - by intros ?%elem_of_nil.
  - destruct (decide (ident x ∈ seen)) as [|Hx]; [by apply IH|].
    intros [->|Hn]%elem_of_cons; [done|].
    apply IH in Hn. set_solver.
Qed.

Lemma first_occurrences_NoDup seen l : NoDup (ident <$> first_occurrences seen l).
Proof.
  revert seen. induction l as [|x l IH]; intros seen; simpl; [constructor|].
  destruct (decide (ident x ∈ seen)) as [|Hx]; [done|].
  rewrite fmap_cons. constructor; [|done].
  intros (y & Heq & Hy)%list_elem_of_fmap.
  apply first_occurrences_fresh in Hy. set_solver.
Qed.

Lemma first_occurrences_first_with seen l i :
  i ∉ seen → first_with i (first_occurrences seen l) = first_with i l.
Proof.
  revert seen. induction l as [|x l IH]; intros seen Hi; cbn [first_occurrences]; [done|].
  change (first_with i (x :: l))
    with (if bool_decide (ident x = i) then Some x else first_with i l).
  destruct (decide (ident x ∈ seen)) as [Hx|Hx].
  - rewrite bool_decide_eq_false_2 by (by intros <-). by apply IH.
  - change (first_with i (x :: ?t))
      with (if bool_decide (ident x = i) then Some x else first_with i t).
    case_bool_decide as Hxi; [done|].
    apply IH. apply not_elem_of_union. split; [|done].
    apply not_elem_of_singleton. congruence.
Qed.

Lemma first_with_app i l k :
  first_with i (l ++ k) =
  match first_with i l with
  | Some n => Some n
  | None => first_with i k
  end.
Proof.
  unfold first_with. induction l as [|x l IH]; cbn [app find]; [done|].
  by case_bool_decide.
Qed.

Lemma first_with_Some i l n : first_with i l = Some n → n ∈ l ∧ ident n = i.
Proof.
  unfold first_with. intros H. apply find_some in H as [Hin Hid].
  split; [by apply list_elem_of_In|]. by apply bool_decide_eq_true in Hid.
Qed.

Lemma first_with_elem n l : n ∈ l → is_Some (first_with (ident n) l).
Proof.
  unfold first_with. induction l as [|x l IH]; cbn [find].
  - by intros ?%elem_of_nil.
  - intros [->|Hn]%elem_of_cons.
    + rewrite bool_decide_eq_true_2 by done. by eexists.
    + case_bool_decide; [by eexists|by apply IH].
Qed.

(** C1. The fused list is the concatenation of the lexical, vector and
    web results in that order (the web results being what the web
    retriever's [retrieve] returned, or nothing when the web source is
    left out), deduplicated by node identity, first occurrence winning:
    it is a subsequence of the concatenation (so it
    is in concatenation order, not sorted by score), no identity occurs
    twice in it, every identity of the concatenation occurs in it, and
    the candidate it holds for an identity is the first one the lexical
    source returned with it, else the first one of the vector source,
    else the first one of the web source. *)
Theorem fusion_first_occurrence_wins env self query is_avoid_query :
  let k := HybridRetriever.similarity_top_k self in
  let bm25_nodes := bm25_retrieve env k query in
  let vector_nodes := vector_retrieve env k query in
  let you_nodes :=
    if is_avoid_query : bool then []
    else YouRetriever.retrieve env (HybridRetriever.you_retriever self) query in
  let fused := fst (HybridRetriever._retrieve env self query is_avoid_query) in
  fused = first_occurrences ∅ (bm25_nodes ++ vector_nodes ++ you_nodes)
  ∧ fused `sublist_of` (bm25_nodes ++ vector_nodes ++ you_nodes)
  ∧ NoDup (ident <$> fused)
  ∧ (∀ n, n ∈ bm25_nodes ++ vector_nodes ++ you_nodes →
          ∃ n', n' ∈ fused ∧ ident n' = ident n)
  ∧ (∀ i, first_with i fused =
          match first_with i bm25_nodes with
          | Some n => Some n
          | None =>
              match first_with i vector_nodes with
              | Some n => Some n
              | None => first_with i you_nodes
              end
          end).
Proof.
  intros k bm25_nodes vector_nodes you_nodes fused.
  assert (fused = first_occurrences ∅ (bm25_nodes ++ vector_nodes ++ you_nodes)) as ->.
  { unfold fused, HybridRetriever._retrieve, HybridRetriever.you_nodes.
    cbn [fst]. rewrite combine_first_occurrences. cbn [app].
    unfold bm25_nodes, vector_nodes, you_nodes, k. by destruct is_avoid_query. }
  split; [done|]. split; [apply first_occurrences_sublist|].
  split; [apply first_occurrences_NoDup|]. split.
  - intros n Hn. apply first_with_elem in Hn as [n' Hn'].
    rewrite <- (first_occurrences_first_with ∅) in Hn' by set_solver.
    apply first_with_Some in Hn' as [? ?]. by exists n'.
  - intros i. rewrite first_occurrences_first_with by set_solver.
    by rewrite !first_with_app.
Qed.

(** One page with the snippets a, a and b, and an inherited [retrieve]
    that leaves repeated texts out: [_retrieve] builds three nodes, two
    of them are fused. *)
Example fusion_after_inherited_retrieve :
  let web := Sample.response [Sample.hit "page" ["a"; "a"; "b"]] in
  let env := Sample.env_dropping_repeats [] [] web in
  get_text <$> YouRetriever._retrieve env Sample.you "q" = ["a"; "a"; "b"]
  ∧ get_text <$> fst (HybridRetriever._retrieve env Sample.hybrid "q" false) = ["a"; "b"].
Proof. intros web env. split; vm_compute; reflexivity. Qed.

(** The same page under one identity from all three sources: the
    lexical copy, with its score, is the one that stays. *)
Example fusion_keeps_lexical_copy :
  let lexical := Sample.passage "doc" "en" [] 3%float in
  let vector := Sample.passage "doc" "en" [] 7%float in
  let other := Sample.passage "other" "en" [] 9%float in
  let env := Sample.env [lexical] [other; vector] Sample.outage in
  fst (HybridRetriever._retrieve env Sample.hybrid "q" true) = [lexical; other].
Proof. intros lexical vector other env. vm_compute. reflexivity. Qed.

(** ** The web source retriever *)

Lemma mapM_Ok_fmap {A B} (f : A → result B) (g : A → B) (l : list A) :
  Forall (fun x => f x = Ok (g x)) l → mapM f l = Ok (g <$> l).
Proof.
  induction 1 as [|x l Hx _ IH]; [done|].
  cbn [mapM fmap list_fmap]. rewrite Hx. cbn [mbind result_bind].
  cbn [fmap] in IH. by rewrite IH.
Qed.

Lemma mapM_Ok_Forall2 {A B} (f : A → result B) (l : list A) (k : list B) :
  mapM f l = Ok k → Forall2 (fun x y => f x = Ok y) l k.
Proof.
  revert k. induction l as [|x l IH]; intros k; cbn [mapM].
  - intros [= <-]. constructor.
  - destruct (f x) as [y|e] eqn:Hx; cbn [mbind result_bind]; [|done].
    destruct (mapM f l) as [k'|e]; cbn [mbind result_bind]; [|done].
    intros [= <-]. constructor; [done|by apply IH].
Qed.

Lemma mapM_Raise {A B} (f : A → result B) (l : list A) (x : A) :
  x ∈ l → (∃ e, f x = Raise e) → ∃ e, mapM f l = Raise e.
Proof.
  intros Hx [e He]. induction l as [|y l IH]; [by apply elem_of_nil in Hx|].
  cbn [mapM]. destruct (f y) as [b|e'] eqn:Hy; cbn [mbind result_bind]; [|by eexists].
  apply elem_of_cons in Hx as [->|Hx]; [congruence|].
  destruct (IH Hx) as [e' ->]. by eexists.
Qed.

Lemma hit_metadata_lacks_key hit key :
  key ∈ ["url"; "description"; "title"] →
  (∃ e, getitem hit key = Raise e) →
  ∃ e, YouRetriever.hit_metadata hit = Raise e.
Proof.
  intros Hkey [e He]. unfold YouRetriever.hit_metadata.
  destruct (getitem hit "url") as [u|eu] eqn:Hu; cbn [mbind result_bind]; [|by eexists].
  destruct (getitem hit "description") as [d|ed] eqn:Hd; cbn [mbind result_bind]; [|by eexists].
  destruct (getitem hit "title") as [t|et] eqn:Ht; cbn [mbind result_bind]; [|by eexists].
  repeat (apply elem_of_cons in Hkey as [->|Hkey]; [congruence|]).
  by apply elem_of_nil in Hkey.
Qed.

(** A malformed payload makes the processing after [response.json()]
    raise. *)
Lemma malformed_raises env results :
  malformed results → ∃ e, YouRetriever.nodes_of_results env results = Raise e.
Proof.
  intros Hbad. unfold YouRetriever.nodes_of_results.
  destruct Hbad as [[e He]|v Hv [e He]|v hits hit Hv Hhits Hin Hhit].
  - rewrite He. by eexists.
  - rewrite Hv. cbn [mbind result_bind]. rewrite He. by eexists.
  - rewrite Hv. cbn [mbind result_bind]. rewrite Hhits. cbn [mbind result_bind].
    destruct (mapM (fun hit => getitem hit "snippets") hits) as [snippets|e] eqn:Hs;
      cbn [mbind result_bind]; [|by eexists].
    destruct (mapM YouRetriever.hit_metadata hits) as [mds|e] eqn:Hm;
      cbn [mbind result_bind]; [|by eexists].
    assert (∃ e, mapM YouRetriever.hit_pairs (zip snippets mds) = Raise e) as [e ->];
      [|by eexists].
    destruct Hhit as [key Hkey Hraise|v' Hv' Hiter].
    + exfalso. apply elem_of_cons in Hkey as [->|Hkey].
      * destruct (mapM_Raise (fun hit => getitem hit "snippets") hits hit Hin Hraise).
        congruence.
      * destruct (mapM_Raise YouRetriever.hit_metadata hits hit Hin
                    (hit_metadata_lacks_key hit key Hkey Hraise)).
        congruence.
    + apply mapM_Ok_Forall2 in Hs. apply mapM_Ok_Forall2 in Hm.
      apply list_elem_of_lookup in Hin as [i Hi].
      destruct (Forall2_lookup_l _ _ _ _ _ Hs Hi) as (s & Hsi & Hsv).
      destruct (Forall2_lookup_l _ _ _ _ _ Hm Hi) as (md & Hmi & _).
      assert (s = v') as -> by congruence.
      apply (mapM_Raise _ _ (v', md)).
      * apply list_elem_of_lookup. exists i.
        rewrite lookup_zip_with, Hsi. cbn. by rewrite Hmi.
      * destruct Hiter as [e He]. unfold YouRetriever.hit_pairs. cbn [fst].
        rewrite He. by eexists.
Qed.

(** Whatever goes wrong with the call, the web source returns []. *)
Lemma web_call_fails_empty env you query :
  web_call_fails env you query → YouRetriever._retrieve env you query = [].
Proof.
  intros Hfail. unfold YouRetriever._retrieve, YouRetriever.try_retrieve.
  destruct Hfail as [e H|c body H Hc|e H|results H Hbad|results e H He]; rewrite H.
  - done.
  - by rewrite (proj2 (Z.eqb_neq c 200) Hc).
  - done.
  - cbn. by destruct (malformed_raises env results Hbad) as [e ->].
  - cbn. by rewrite He.
Qed.

(** The inherited [retrieve] has nothing to return when [_retrieve]
    returned nothing. *)
Lemma base_retrieve_nil env : base_retrieve env [] = [].
Proof. apply sublist_nil_r, base_retrieve_sublist. Qed.

Lemma web_retrieve_fails_empty env you query :
  web_call_fails env you query → YouRetriever.retrieve env you query = [].
Proof.
  intros Hfail. unfold YouRetriever.retrieve.
  rewrite (web_call_fails_empty _ _ _ Hfail). apply base_retrieve_nil.
Qed.

(** C3. When the call to the web source fails - the request raises, the
    status is not 200, the body is not JSON, or the payload is malformed
    - the web source retriever returns the empty list and raises
    nothing, and the fused list is the fusion of the lexical and vector
    results alone: every one of their identities is in it, with the
    candidate the lexical source, else the vector source, returned
    first. *)
Theorem web_source_fails_soft env self query :
  let k := HybridRetriever.similarity_top_k self in
  let bm25_nodes := bm25_retrieve env k query in
  let vector_nodes := vector_retrieve env k query in
  let fused := fst (HybridRetriever._retrieve env self query false) in
  web_call_fails env (HybridRetriever.you_retriever self) query →
  YouRetriever._retrieve env (HybridRetriever.you_retriever self) query = []
  ∧ fused = first_occurrences ∅ (bm25_nodes ++ vector_nodes)
  ∧ fused = fst (HybridRetriever._retrieve env self query true)
  ∧ (∀ n, n ∈ bm25_nodes ++ vector_nodes → ∃ n', n' ∈ fused ∧ ident n' = ident n)
  ∧ (∀ i, first_with i fused =
          match first_with i bm25_nodes with
          | Some n => Some n
          | None => first_with i vector_nodes
          end).
Proof.
  intros k bm25_nodes vector_nodes fused Hfail.
  pose proof (web_call_fails_empty _ _ _ Hfail) as Hempty.
  assert (fused = first_occurrences ∅ (bm25_nodes ++ vector_nodes)) as Hfused.
  { unfold fused, HybridRetriever._retrieve, HybridRetriever.you_nodes.
    cbn [fst negb]. rewrite (web_retrieve_fails_empty _ _ _ Hfail).
    rewrite combine_first_occurrences, app_nil_r. done. }
  split; [done|]. split; [done|]. split; [|split].
  - rewrite Hfused. unfold HybridRetriever._retrieve, HybridRetriever.you_nodes.
    cbn [fst negb]. by rewrite combine_first_occurrences, app_nil_r.
  - intros n Hn. rewrite Hfused. apply first_with_elem in Hn as [n' Hn'].
    rewrite <- (first_occurrences_first_with ∅) in Hn' by apply not_elem_of_empty.
    apply first_with_Some in Hn' as [? ?]. by exists n'.
  - intros i. rewrite Hfused.
    rewrite first_occurrences_first_with by apply not_elem_of_empty.
    by rewrite first_with_app.
Qed.

(** A 503 from the web collaborator, and a 200 whose payload has no
    ["hits"]: the lexical and vector results come through. *)
Lemma web_source_fails_soft_witness :
  let lexical := Sample.passage "doc" "en" [] 3%float in
  let vector := Sample.passage "other" "en" [] 7%float in
  let env := Sample.env [lexical] [vector] Sample.outage in
  let env' := Sample.env [lexical] [vector] (HttpResponse 200 (Ok (JObj []))) in
  fst (HybridRetriever._retrieve env Sample.hybrid "q" false) = [lexical; vector]
  ∧ fst (HybridRetriever._retrieve env' Sample.hybrid "q" false) = [lexical; vector].
Proof.
  intros lexical vector env env'. split.
  - destruct (web_source_fails_soft env Sample.hybrid "q") as (_ & -> & _).
    + by apply (fails_status _ _ _ 503 (Raise JSONDecodeError)).
    + vm_compute. reflexivity.
  - destruct (web_source_fails_soft env' Sample.hybrid "q") as (_ & -> & _).
    + apply (fails_malformed _ _ _ (JObj [])); [done|].
      apply payload_lacks_hits. by eexists.
    + vm_compute. reflexivity.
Defined.

Lemma mapM_fmap_arg {A B C} (f : B → result C) (h : A → B) (l : list A) :
  mapM f (h <$> l) = mapM (f ∘ h) l.
Proof.
  induction l as [|x l IH]; [done|].
  cbn [mapM fmap list_fmap compose]. cbn [fmap] in IH. by rewrite IH.
Qed.

Lemma zip_fmap_same {A B C} (f : A → B) (g : A → C) (l : list A) :
  zip (f <$> l) (g <$> l) = (fun x => (f x, g x)) <$> l.
Proof. induction l as [|x l IH]; [done|]. cbn. cbn in IH. by rewrite IH. Qed.

Lemma hit_metadata_well_formed hit :
  well_formed_hit hit → is_Ok (YouRetriever.hit_metadata hit).
Proof.
  intros (_ & [u Hu] & [d Hd] & [t Ht]). unfold YouRetriever.hit_metadata.
  rewrite Hu, Hd, Ht. by eexists.
Qed.

Lemma fmap_mjoin {A B} (f : A → B) (ls : list (list A)) :
  f <$> mjoin ls = mjoin (fmap f <$> ls).
Proof.
  induction ls as [|l ls IH]; [done|].
  change (f <$> l ++ mjoin ls = (f <$> l) ++ mjoin (fmap f <$> ls)).
  rewrite fmap_app. f_equal. exact IH.
Qed.

(** The text of the nodes built from a list of (snippet, metadata)
    pairs whose snippets are strings. *)
Lemma make_nodes_texts env (pairs : list (string * gmap string json)) :
  (∀ s, validate_text env (JStr s) = Ok s) →
  let search_hits := (fun p => (JStr (fst p), snd p)) <$> pairs in
  ∃ out,
    mapM (YouRetriever.make_node env) (zip (seq 0 (length search_hits)) search_hits) = Ok out
    ∧ get_text <$> out = fst <$> pairs
    ∧ Forall (fun n => score n = Some 1%float) out.
Proof.
  intros Hvalid search_hits.
  set (build := fun s : nat * (json * gmap string json) =>
         {| node := {| node_id := uuid4 env (fst s);
                       text := match fst (snd s) with JStr t => t | _ => "" end;
                       metadata := snd (snd s) |};
            score := Some 1%float |}).
  exists (build <$> zip (seq 0 (length search_hits)) search_hits). split; [|split].
  - apply mapM_Ok_fmap. apply Forall_forall. intros [i [v md]] Hin.
    apply elem_of_zip_r in Hin. unfold search_hits in Hin.
    apply list_elem_of_fmap in Hin as ([s md'] & [= -> ->] & _).
    unfold YouRetriever.make_node. cbn [fst snd]. by rewrite Hvalid.
  - rewrite <- list_fmap_compose.
    transitivity ((fun q : json * gmap string json =>
                     match fst q with JStr t => t | _ => "" end)
                  <$> (snd <$> zip (seq 0 (length search_hits)) search_hits)).
    { by rewrite <- list_fmap_compose. }
    rewrite snd_zip by (rewrite length_seq; lia).
    unfold search_hits. rewrite <- list_fmap_compose. by apply list_fmap_ext.
  - apply Forall_fmap, Forall_forall. by intros.
Qed.

(** A 200 response with well-formed hits gives one node per snippet, in
    the order of the hits and of their snippets. *)
Lemma nodes_of_results_well_formed env results hits :
  getitem results "hits" = Ok (JArr hits) →
  Forall well_formed_hit hits →
  (∀ s, validate_text env (JStr s) = Ok s) →
  ∃ out,
    YouRetriever.nodes_of_results env results = Ok out
    ∧ get_text <$> out = mjoin (hit_snippets <$> hits)
    ∧ Forall (fun n => score n = Some 1%float) out.
Proof.
  intros Hhits Hwf Hvalid. unfold YouRetriever.nodes_of_results.
  rewrite Hhits. cbn [mbind result_bind iter].
  set (md_of := fun hit => match YouRetriever.hit_metadata hit with
                           | Ok m => m
                           | Raise _ => ∅
                           end).
  rewrite (mapM_Ok_fmap _ (fun hit => JArr (JStr <$> hit_snippets hit))).
  2:{ eapply Forall_impl; [exact Hwf|]. by intros hit (? & _). }
  cbn [mbind result_bind].
  rewrite (mapM_Ok_fmap _ md_of).
  2:{ eapply Forall_impl; [exact Hwf|]. intros hit [m Hm]%hit_metadata_well_formed.
      unfold md_of. by rewrite Hm. }
  cbn [mbind result_bind].
  rewrite zip_fmap_same, mapM_fmap_arg.
  rewrite (mapM_Ok_fmap _
             (fun hit => (fun s => (JStr s, md_of hit)) <$> hit_snippets hit)).
  2:{ apply Forall_forall. intros hit _. unfold compose, YouRetriever.hit_pairs.
      cbn [fst snd iter mbind result_bind]. by rewrite <- list_fmap_compose. }
  cbn [mbind result_bind].
  set (pairs := mjoin ((fun hit => (fun s => (s, md_of hit)) <$> hit_snippets hit) <$> hits)).
  assert (mjoin ((fun hit => (fun s => (JStr s, md_of hit)) <$> hit_snippets hit) <$> hits)
          = (fun p => (JStr (fst p), snd p)) <$> pairs) as ->.
  { unfold pairs. rewrite fmap_mjoin, <- list_fmap_compose. f_equal.
    apply list_fmap_ext. intros i hit _. unfold compose.
    by rewrite <- list_fmap_compose. }
  destruct (make_nodes_texts env pairs Hvalid) as (out & Hout & Htexts & Hscores).
  exists out. split; [exact Hout|]. split; [|done].
  rewrite Htexts. unfold pairs. rewrite fmap_mjoin, <- list_fmap_compose. f_equal.
  apply list_fmap_ext. intros i hit _. unfold compose.
  rewrite <- list_fmap_compose. apply list_fmap_id.
Qed.

(** C2 does not hold as stated.  A retriever asked for 50 results caps
    its request at 20, yet a response of 50 hits with one snippet each
    gives 50 nodes; and a retriever asked for 10 results gets 21 nodes
    from a response of only 3 hits with 7 snippets each. *)
Lemma web_source_yields_more_than_20 :
  let fifty_hits := Sample.response (replicate 50 (Sample.hit "page" ["snippet"])) in
  let three_hits :=
    Sample.response (replicate 3 (Sample.hit "page" ["1"; "2"; "3"; "4"; "5"; "6"; "7"])) in
  ∃ you you',
    YouRetriever.__init__ ∅ (Some "key") 50 = Ok you
    ∧ YouRetriever.similarity_top_k you = 20
    ∧ length (YouRetriever._retrieve (Sample.env [] [] fifty_hits) you "q") = 50%nat
    ∧ YouRetriever.__init__ ∅ (Some "key") 10 = Ok you'
    ∧ length (YouRetriever._retrieve (Sample.env [] [] three_hits) you' "q") = 21%nat.
Proof.
  intros fifty_hits three_hits. eexists _, _.
  split; [reflexivity|]. split; [reflexivity|]. split; [by vm_compute|].
  split; [reflexivity|]. by vm_compute.
Qed.

(** C2, amended.  Whatever limit is requested, the web source retriever
    asks the web collaborator for min(limit, 20) results, never more
    than 20.  It does not cut the response: on a 200 response whose
    hits are well-formed it returns one web-origin candidate per snippet
    of every hit, in order, so as many candidates as the hits have
    snippets. *)
Theorem web_source_caps_request env environ api_key limit you query :
  YouRetriever.__init__ environ api_key limit = Ok you →
  YouRetriever.similarity_top_k you = Z.min limit 20
  ∧ YouRetriever.similarity_top_k you <= 20
  ∧ YouRetriever.send env you query =
    requests_get env YouRetriever.url (YouRetriever._api_key you)
                 (YouRetriever.query_param query) (Z.min limit 20)
  ∧ ∀ results hits,
      YouRetriever.send env you query = HttpResponse 200 (Ok results) →
      getitem results "hits" = Ok (JArr hits) →
      Forall well_formed_hit hits →
      (∀ s, validate_text env (JStr s) = Ok s) →
      let out := YouRetriever._retrieve env you query in
      get_text <$> out = mjoin (hit_snippets <$> hits)
      ∧ length out = sum_list (length <$> (hit_snippets <$> hits))
      ∧ Forall (fun n => score n = Some 1%float) out.
Proof.
  intros Hinit.
  assert (YouRetriever.similarity_top_k you = Z.min limit 20) as Hk.
  { unfold YouRetriever.__init__ in Hinit.
    destruct (match api_key with Some (String _ _ as k) => Ok k | _ => _ end);
      cbn in Hinit; [|done].
    injection Hinit as <-. cbn. destruct (Z.leb_spec limit 20); lia. }
  split; [done|]. split; [lia|]. split.
  { unfold YouRetriever.send. by rewrite Hk. }
  intros results hits Hsend Hhits Hwf Hvalid out.
  destruct (nodes_of_results_well_formed env results hits Hhits Hwf Hvalid)
    as (nodes & Hnodes & Htexts & Hscores).
  assert (out = nodes) as ->.
  { unfold out, YouRetriever._retrieve, YouRetriever.try_retrieve.
    rewrite Hsend. cbn. by rewrite Hnodes. }
  split; [done|]. split; [|done].
  rewrite <- length_join, <- Htexts. by rewrite length_fmap.
Qed.

(** A retriever asked for 50 results: the request asks for 20, and a
    response of two hits with three snippets in all gives three nodes. *)
Lemma web_source_caps_request_witness :
  let web := Sample.response [Sample.hit "p1" ["a"; "b"]; Sample.hit "p2" ["c"]] in
  let env := Sample.env [] [] web in
  ∃ you,
    YouRetriever.__init__ ∅ (Some "key") 50 = Ok you
    ∧ YouRetriever.similarity_top_k you = 20
    ∧ get_text <$> YouRetriever._retrieve env you "q" = ["a"; "b"; "c"].
Proof.
  intros web env. eexists. split; [reflexivity|].
  destruct (web_source_caps_request env ∅ (Some "key") 50 _ "q" eq_refl)
    as (Hk & _ & _ & Hyield).
  split; [exact Hk|].
  destruct (Hyield (JObj [("hits", JArr [Sample.hit "p1" ["a"; "b"]; Sample.hit "p2" ["c"]])])
                   [Sample.hit "p1" ["a"; "b"]; Sample.hit "p2" ["c"]])
    as (Htexts & _).
  - reflexivity.
  - reflexivity.
  - repeat constructor; by eexists.
  - by intros s.
  - exact Htexts.
Defined.

(** ** The retrieval session *)

Lemma truth_or_bool stored explicit :
  truth (or_bool stored explicit) = true ↔ stored = Some true ∨ explicit = Some true.
Proof.
  destruct stored as [[]|], explicit as [[]|]; cbn; split; intros H;
    try done; try (by left); try (by right); by destruct H.
Qed.

(** What [retrieve] does, in one equation: the engine built for the
    call is run with the resolved flag, and the stored flag is cleared
    when the engine returns. *)
Lemma retrieve_unfold env self query language top_k include_tags exclude_tags explicit :
  let top_k' := or_int top_k (RetrieverConfig.top_k (Retriever.config self)) in
  let language' := or_str language (RetrieverConfig.language (Retriever.config self)) in
  let engine := fst (Retriever.load_query_engine self (Some top_k') (Some language')
                       include_tags exclude_tags None) in
  let avoid := truth (or_bool (Retriever.is_avoid_query self) explicit) in
  let run := WandbRetrieverQueryEngine.retrieve env engine query avoid in
  Retriever.retrieve env self query language top_k include_tags exclude_tags explicit =
  ((fun results : list NodeWithScore => Retriever.project <$> results) <$> run.1,
   match run.1 with
   | Ok _ => Retriever.set_is_avoid_query self None
   | Raise _ => self
   end,
   run.2).
Proof.
  intros top_k' language' engine avoid run.
  unfold Retriever.retrieve. cbn [Retriever.load_query_engine].
  fold top_k' language'. fold avoid.
  change (WandbRetrieverQueryEngine.retrieve env _ query avoid) with run.
  by destruct run as [[results|e] sent].
Qed.

(** The requests a call sends, by the resolved flag. *)
Lemma retrieve_sent env self query language top_k include_tags exclude_tags explicit :
  (Retriever.retrieve env self query language top_k include_tags exclude_tags explicit).2 =
  if truth (or_bool (Retriever.is_avoid_query self) explicit)
  then []
  else [ {| wr_query := YouRetriever.query_param query;
            wr_num_web_results :=
              YouRetriever.similarity_top_k
                (HybridRetriever.you_retriever (Retriever._retriever self)) |} ].
Proof.
  rewrite retrieve_unfold. cbn [snd].
  unfold WandbRetrieverQueryEngine.retrieve, HybridRetriever.retrieve,
    HybridRetriever._retrieve, HybridRetriever.you_nodes. cbn [snd].
  by destruct (truth _).
Qed.

(** C8. In a call to [retrieve] the web source is left out exactly when
    the stored one-shot flag or the call's own flag is true: no request
    goes to the web collaborator and the pipeline runs on the fusion of
    the lexical and vector results; otherwise one request goes out and
    what the web retriever's [retrieve] returns is fused in. *)
Theorem avoid_flag_is_logical_or env self query language top_k
    include_tags exclude_tags explicit :
  let suppressed := Retriever.is_avoid_query self = Some true ∨ explicit = Some true in
  let call :=
    Retriever.retrieve env self query language top_k include_tags exclude_tags explicit in
  let fusion := Retriever._retriever self in
  let k := HybridRetriever.similarity_top_k fusion in
  let top_k' := or_int top_k (RetrieverConfig.top_k (Retriever.config self)) in
  let language' := or_str language (RetrieverConfig.language (Retriever.config self)) in
  let engine := fst (Retriever.load_query_engine self (Some top_k') (Some language')
                       include_tags exclude_tags None) in
  let pipeline := fun fused =>
    (fun results : list NodeWithScore => Retriever.project <$> results)
    <$> WandbRetrieverQueryEngine._apply_node_postprocessors env query
          (WandbRetrieverQueryEngine._node_postprocessors engine) fused in
  (call.2 = [] ↔ suppressed)
  ∧ (suppressed →
     call.1.1 = pipeline (first_occurrences ∅
                            (bm25_retrieve env k query ++ vector_retrieve env k query)))
  ∧ (¬ suppressed →
     call.2 = [ {| wr_query := YouRetriever.query_param query;
                   wr_num_web_results :=
                     YouRetriever.similarity_top_k (HybridRetriever.you_retriever fusion) |} ]
     ∧ call.1.1 =
       pipeline (first_occurrences ∅
                   (bm25_retrieve env k query ++ vector_retrieve env k query
                    ++ YouRetriever.retrieve env (HybridRetriever.you_retriever fusion) query))).
Proof.
  intros suppressed call fusion k top_k' language' engine pipeline.
  pose proof (truth_or_bool (Retriever.is_avoid_query self) explicit) as Hor.
  fold suppressed in Hor.
  assert (call.1.1 =
          pipeline (HybridRetriever._retrieve env fusion query
                      (truth (or_bool (Retriever.is_avoid_query self) explicit))).1) as Hrun.
  { unfold call. by rewrite retrieve_unfold. }
  unfold HybridRetriever._retrieve, HybridRetriever.you_nodes in Hrun.
  cbn [fst] in Hrun. rewrite combine_first_occurrences in Hrun. cbn [app] in Hrun.
  pose proof (retrieve_sent env self query language top_k include_tags exclude_tags explicit)
    as Hsent.
  fold call in Hsent.
  destruct (truth (or_bool (Retriever.is_avoid_query self) explicit)).
  - assert suppressed as Hs by by apply Hor.
    split; [done|]. split; [|done].
    intros _. rewrite Hrun. cbn [negb fst]. by rewrite app_nil_r.
  - assert (¬ suppressed) as Hs by (intros Hs; by apply Hor in Hs).
    split; [by rewrite Hsent|]. split; [done|].
    intros _. split; [done|]. by rewrite Hrun.
Qed.

(** A stored flag alone, and the call's flag alone, keep the web source
    out; with neither, a request is sent. *)
Example avoid_flag_cases :
  let env := Sample.env [Sample.abc] [Sample.ab] Sample.outage in
  let sent stored explicit :=
    (Retriever.retrieve env (Sample.session stored) "q" None None None None explicit).2 in
  sent (Some true) (Some false) = []
  ∧ sent None (Some true) = []
  ∧ sent (Some true) None = []
  ∧ length (sent None (Some false)) = 1%nat
  ∧ length (sent (Some false) None) = 1%nat.
Proof. intros env sent. repeat split; by vm_compute. Qed.

(** C9. When a call to [retrieve] completes, the stored flag is None,
    whatever the arguments of the call and whatever was stored before;
    the rest of the session is as it was.  The next call, made without a
    flag of its own, therefore sends its request to the web source. *)
Theorem one_shot_flag_is_cleared env self query language top_k
    include_tags exclude_tags explicit outputs self' sent :
  Retriever.retrieve env self query language top_k include_tags exclude_tags explicit
  = (Ok outputs, self', sent) →
  Retriever.is_avoid_query self' = None
  ∧ Retriever.config self' = Retriever.config self
  ∧ Retriever._retriever self' = Retriever._retriever self
  ∧ ∀ env2 query2 language2 top_k2 include_tags2 exclude_tags2 explicit2,
      explicit2 ≠ Some true →
      (Retriever.retrieve env2 self' query2 language2 top_k2
         include_tags2 exclude_tags2 explicit2).2
      = [ {| wr_query := YouRetriever.query_param query2;
             wr_num_web_results :=
               YouRetriever.similarity_top_k
                 (HybridRetriever.you_retriever (Retriever._retriever self)) |} ].
Proof.
  intros Hcall. rewrite retrieve_unfold in Hcall. cbn zeta in Hcall.
  destruct (WandbRetrieverQueryEngine.retrieve env _ query _) as [[results|e] sent0];
    cbn [fmap result_fmap fst snd] in Hcall; [|done].
  injection Hcall as _ <- _.
  split; [done|]. split; [done|]. split; [done|].
  intros env2 query2 language2 top_k2 include_tags2 exclude_tags2 explicit2 Hexplicit.
  rewrite retrieve_sent.
  cbn [Retriever.is_avoid_query Retriever.set_is_avoid_query Retriever._retriever or_bool].
  by destruct explicit2 as [[]|].
Qed.

(** A call with the flag set, on a session that also stores it: the
    call completes, the flag is gone, and the next call, which gives no
    flag, asks the web source. *)
Lemma one_shot_flag_is_cleared_witness :
  let env := Sample.env [Sample.abc] [Sample.ab] Sample.outage in
  let first := Retriever.retrieve env (Sample.session (Some true)) "q"
                 None None None None (Some true) in
  first.2 = []
  ∧ Retriever.is_avoid_query first.1.2 = None
  ∧ length (Retriever.retrieve env first.1.2 "again" None None None None (Some false)).2
    = 1%nat.
Proof.
  intros env first.
  destruct first as [[r self'] sent] eqn:Hfirst.
  assert (∃ outputs, r = Ok outputs) as [outputs ->].
  { apply (f_equal (fun x => x.1.1)) in Hfirst. cbn in Hfirst. subst r.
    eexists. vm_compute. reflexivity. }
  destruct (one_shot_flag_is_cleared _ _ _ _ _ _ _ _ _ _ _ Hfirst)
    as (Hflag & _ & _ & Hnext).
  split; [|split].
  - apply (f_equal snd) in Hfirst. cbn in Hfirst. subst sent. by vm_compute.
  - exact Hflag.
  - cbn [fst snd]. by rewrite Hnext.
Defined.

(** When the pipeline raises (a candidate without tags or language, or
    a failing re-ranker), [retrieve] raises before the assignment that
    clears the flag: the session is left as it was. *)
Lemma flag_kept_when_retrieve_raises env self query language top_k
    include_tags exclude_tags explicit e self' sent :
  Retriever.retrieve env self query language top_k include_tags exclude_tags explicit
  = (Raise e, self', sent) →
  self' = self.
Proof.
  intros Hcall. rewrite retrieve_unfold in Hcall. cbn zeta in Hcall.
  destruct (WandbRetrieverQueryEngine.retrieve env _ query _) as [[results|e'] sent0];
    cbn [fmap result_fmap fst snd] in Hcall; [done|].
  by injection Hcall as _ <- _.
Qed.

(** C10. When the pipeline yields no result, [retrieve] returns the
    empty list without error and [__call__], which reads the first
    element of that list, raises IndexError; this happens, for one, when
    the web source is down and both index retrievers return nothing. *)
Theorem call_raises_on_empty_result :
  (∀ env self query language top_k include_tags exclude_tags explicit self' sent,
     Retriever.retrieve env self query language top_k include_tags exclude_tags explicit
     = (Ok [], self', sent) →
     Retriever.__call__ env self query language top_k include_tags exclude_tags explicit
     = (Raise IndexError, self', sent))
  ∧ (let env := Sample.env [] [] Sample.outage in
     let self := Sample.session None in
     (Retriever.retrieve env self "q" None None None None (Some false)).1.1 = Ok []
     ∧ (Retriever.__call__ env self "q" None None None None (Some false)).1.1
       = Raise IndexError).
Proof.
  split.
  - intros env self query language top_k include_tags exclude_tags explicit self' sent Hr.
    unfold Retriever.__call__. by rewrite Hr.
  - split; vm_compute; reflexivity.
Qed.

(** * Further properties of the code *)

Set Warnings "-clear-no-such-hyp".

(** ** The nodes of the web source *)

Lemma hit_metadata_lookup hit md :
  YouRetriever.hit_metadata hit = Ok md →
  md !! "language" = Some (JStr "en")
  ∧ md !! "tags" = Some (JArr [JStr "you.com"])
  ∧ getitem hit "url" = Ok (default JNull (md !! "source"))
  ∧ getitem hit "description" = Ok (default JNull (md !! "description"))
  ∧ getitem hit "title" = Ok (default JNull (md !! "title"))
  ∧ dom md = {["source"; "language"; "description"; "title"; "tags"]}.
Proof.
  unfold YouRetriever.hit_metadata.
  destruct (getitem hit "url") as [u|]; cbn [mbind result_bind]; [|done].
  destruct (getitem hit "description") as [d|]; cbn [mbind result_bind]; [|done].
  destruct (getitem hit "title") as [t|]; cbn [mbind result_bind]; [|done].
  intros [= <-]. repeat split; by simplify_map_eq.
Qed.

(** What a successful run of the code after [response.json()] went
    through: the hits, their snippet values and metadata, the pairs of
    every hit, and one node per pair. *)
Lemma nodes_of_results_inv env results out :
  YouRetriever.nodes_of_results env results = Ok out →
  ∃ hits snippets mds per_hit,
    getitem results "hits" ≫= iter = Ok hits
    ∧ mapM (fun hit => getitem hit "snippets") hits = Ok snippets
    ∧ mapM YouRetriever.hit_metadata hits = Ok mds
    ∧ mapM YouRetriever.hit_pairs (zip snippets mds) = Ok per_hit
    ∧ mapM (YouRetriever.make_node env)
        (zip (seq 0 (length (mjoin per_hit))) (mjoin per_hit)) = Ok out.
Proof.
  unfold YouRetriever.nodes_of_results.
  destruct (getitem results "hits" ≫= iter) as [hits|] eqn:Hhits;
    cbn [mbind result_bind]; [|done].
  destruct (mapM (fun hit => getitem hit "snippets") hits) as [snippets|] eqn:Hs;
    cbn [mbind result_bind]; [|done].
  destruct (mapM YouRetriever.hit_metadata hits) as [mds|] eqn:Hm;
    cbn [mbind result_bind]; [|done].
  destruct (mapM YouRetriever.hit_pairs (zip snippets mds)) as [per_hit|] eqn:Hp;
    cbn [mbind result_bind]; [|done].
  intros Hout. by exists hits, snippets, mds, per_hit.
Qed.

(** Every node of the web source was built by [make_node] from a pair
    whose metadata is that of one of the hits. *)
Lemma web_node_origin env you query n :
  n ∈ YouRetriever._retrieve env you query →
  ∃ i snippet hit md,
    YouRetriever.hit_metadata hit = Ok md
    ∧ YouRetriever.make_node env (i, (snippet, md)) = Ok n.
Proof.
  unfold YouRetriever._retrieve, YouRetriever.try_retrieve.
  destruct (YouRetriever.send env you query) as [e|status body];
    [by intros ?%elem_of_nil|].
  destruct (negb (status =? 200)); [by intros ?%elem_of_nil|].
  destruct body as [results|e]; cbn [mbind result_bind]; [|by intros ?%elem_of_nil].
  destruct (YouRetriever.nodes_of_results env results) as [out|e] eqn:Hout;
    [|by intros ?%elem_of_nil].
  intros Hn.
  apply nodes_of_results_inv in Hout
    as (hits & snippets & mds & per_hit & _ & _ & Hm & Hp & Hout).
  apply mapM_Ok_Forall2 in Hout, Hp, Hm.
  apply list_elem_of_lookup in Hn as [k Hk].
  destruct (Forall2_lookup_r _ _ _ _ _ Hout Hk) as ([i [snippet md]] & Hzip & Hmake).
  apply list_elem_of_lookup_2, elem_of_zip_r, list_elem_of_join in Hzip
    as (pairs & Hin & Hpairs).
  apply list_elem_of_lookup in Hpairs as [j Hj].
  destruct (Forall2_lookup_r _ _ _ _ _ Hp Hj) as ([v md'] & Hz & Hhp).
  assert (md' = md) as ->.
  { unfold YouRetriever.hit_pairs in Hhp. cbn [fst snd] in Hhp.
    destruct (iter v) as [items|]; cbn [mbind result_bind] in Hhp; [|done].
    injection Hhp as <-. by apply list_elem_of_fmap in Hin as (? & [= _ ->] & _). }
  apply list_elem_of_lookup_2, elem_of_zip_r, list_elem_of_lookup in Hz as [h Hh].
  destruct (Forall2_lookup_r _ _ _ _ _ Hm Hh) as (hit & _ & Hhit).
  by exists i, snippet, hit, md.
Qed.

Lemma web_node_shape env you query n :
  n ∈ YouRetriever._retrieve env you query →
  score n = Some 1%float
  ∧ metadata (node n) !! "language" = Some (JStr "en")
  ∧ metadata (node n) !! "tags" = Some (JArr [JStr "you.com"])
  ∧ dom (metadata (node n)) = {["source"; "language"; "description"; "title"; "tags"]}.
Proof.
  intros (i & snippet & hit & md & Hmd & Hmake)%web_node_origin.
  unfold YouRetriever.make_node in Hmake. cbn [fst snd] in Hmake.
  destruct (validate_text env snippet) as [txt|]; cbn [mbind result_bind] in Hmake; [|done].
  injection Hmake as <-.
  by destruct (hit_metadata_lookup hit md Hmd) as (Hlang & Htags & _ & _ & _ & Hdom).
Qed.

Lemma web_node_well_formed env you query n :
  n ∈ YouRetriever._retrieve env you query →
  node_tags n = ["you.com"] ∧ well_tagged n ∧ has_language n.
Proof.
  intros (_ & Hlang & Htags & _)%web_node_shape.
  unfold well_tagged, has_language, node_tags. rewrite Htags, Hlang. by repeat split.
Qed.

(** X1. Whatever the web collaborator answers, every candidate the web
    source returns has score 1.0, language "en", the single tag
    "you.com", and exactly the metadata keys source, language,
    description, title and tags; so it is well tagged, carries a
    language, and satisfies a language policy exactly when "en" is
    acceptable. *)
Theorem web_nodes_shape env you query :
  Forall (fun n =>
    score n = Some 1%float
    ∧ metadata (node n) !! "language" = Some (JStr "en")
    ∧ metadata (node n) !! "tags" = Some (JArr [JStr "you.com"])
    ∧ dom (metadata (node n)) = {["source"; "language"; "description"; "title"; "tags"]}
    ∧ well_tagged n
    ∧ has_language n
    ∧ ∀ languages, language_policy languages n ↔ "en" ∈ languages)
  (YouRetriever._retrieve env you query).
Proof.
  apply Forall_forall. intros n Hn.
  destruct (web_node_shape _ _ _ _ Hn) as (Hscore & Hlang & Htags & Hdom).
  destruct (web_node_well_formed _ _ _ _ Hn) as (_ & Hwt & Hhl).
  repeat split; try done; unfold language_policy; by rewrite Hlang.
Qed.

(** ** The whole pipeline *)

Lemma or_int_resolved a b : or_int (Some (or_int a b)) b = or_int a b.
Proof.
  unfold or_int. destruct a as [z|].
  - destruct (Z.eqb_spec z 0) as [->|Hz].
    + by destruct (Z.eqb_spec b 0).
    + by rewrite (proj2 (Z.eqb_neq z 0) Hz).
  - by destruct (Z.eqb_spec b 0).
Qed.

Lemma or_str_resolved a b : or_str (Some (or_str a b)) b = or_str a b.
Proof. unfold or_str. destruct a as [[|c s]|]; by destruct b. Qed.

(** On candidates that carry tags (when a tag set is in force) and a
    language, with a sentinel that carries a language, neither Stage A
    nor Stage B raises. *)
Lemma stage_A_then_B_is_Ok env a b nodes :
  (¬ (unset_or_empty (MetadataPostprocessor.include_tags a)
      ∧ unset_or_empty (MetadataPostprocessor.exclude_tags a)) →
   Forall well_tagged nodes) →
  Forall has_language nodes →
  has_language (create_no_result_dummy_node env) →
  ∃ out, stage_A_then_B env a b nodes = Ok out.
Proof.
  intros Htags Hlang Hdummy. rewrite stage_A_then_B_unfold.
  assert (∃ mid, MetadataPostprocessor._postprocess_nodes env a nodes = Ok mid
                 ∧ Forall has_language mid) as (mid & -> & Hmid).
  { destruct (decide (unset_or_empty (MetadataPostprocessor.include_tags a)
                      ∧ unset_or_empty (MetadataPostprocessor.exclude_tags a)))
      as [[Hi He]|Hon].
    - exists nodes. split; [|done].
      apply nonempty_false in Hi. apply nonempty_false in He.
      unfold MetadataPostprocessor._postprocess_nodes. by rewrite Hi, He.
    - eexists. split; [apply metadata_postprocess_active; [done|by apply Htags]|].
      apply Forall_app. split; [|by apply Forall_replicate].
      apply Forall_forall. intros n Hn. apply list_elem_of_filter in Hn as [_ Hn].
      by eapply Forall_forall in Hlang. }
  cbn [mbind result_bind]. rewrite language_postprocess by done. by eexists.
Qed.

(** The three post-processors of an engine, chained. *)
Lemma apply_three_stages env query a b top_n model nodes :
  WandbRetrieverQueryEngine._apply_node_postprocessors env query
    [WandbRetrieverQueryEngine.Metadata a; WandbRetrieverQueryEngine.LanguageFilter b;
     WandbRetrieverQueryEngine.CohereRerank top_n model] nodes
  = stage_A_then_B env a b nodes ≫= cohere_rerank env model top_n query.
Proof.
  rewrite stage_A_then_B_unfold. cbn.
  destruct (MetadataPostprocessor._postprocess_nodes env a nodes) as [mid|e]; [|done].
  cbn. destruct (LanguageFilterPostprocessor._postprocess_nodes b mid) as [out|e]; [|done].
  cbn. by destruct (cohere_rerank env model top_n query out).
Qed.

(** The post-processors [load_query_engine] builds, with the limit and
    the language already resolved as [retrieve] passes them. *)
Lemma load_query_engine_postprocessors self top_k language include_tags exclude_tags flag :
  let N := or_int top_k (RetrieverConfig.top_k (Retriever.config self)) in
  let lang := or_str language (RetrieverConfig.language (Retriever.config self)) in
  WandbRetrieverQueryEngine._node_postprocessors
    (Retriever.load_query_engine self (Some N) (Some lang) include_tags exclude_tags flag).1
  = [ WandbRetrieverQueryEngine.Metadata
        {| MetadataPostprocessor.min_result_size := N;
           MetadataPostprocessor.include_tags := include_tags;
           MetadataPostprocessor.exclude_tags := exclude_tags |};
      WandbRetrieverQueryEngine.LanguageFilter
        {| LanguageFilterPostprocessor.languages := [lang; "python"];
           LanguageFilterPostprocessor.min_result_size := N |};
      WandbRetrieverQueryEngine.CohereRerank N
        (if String.eqb lang "en" then "rerank-english-v2.0" else "rerank-multilingual-v2.0") ].
Proof.
  intros N lang. unfold Retriever.load_query_engine. cbn [fst WandbRetrieverQueryEngine._node_postprocessors].
  unfold N, lang. rewrite (or_int_resolved top_k), (or_str_resolved language).
  by destruct (String.eqb _ "en").
Qed.

(** X2. When the lexical and vector candidates carry a list of string
    tags and a language, and the sentinel carries a language, Stage A
    and Stage B cannot raise: [retrieve] returns what the re-ranker
    returns on the output of Stage B, projected, and clears the stored
    flag; it raises only if the re-ranker does, and then keeps the
    session as it was.  The re-ranker model is the English one exactly
    when the resolved language is "en". *)
Theorem only_the_reranker_can_fail env self query language top_k
    include_tags exclude_tags explicit :
  let fusion := Retriever._retriever self in
  let k := HybridRetriever.similarity_top_k fusion in
  let N := or_int top_k (RetrieverConfig.top_k (Retriever.config self)) in
  let lang := or_str language (RetrieverConfig.language (Retriever.config self)) in
  let a := {| MetadataPostprocessor.min_result_size := N;
              MetadataPostprocessor.include_tags := include_tags;
              MetadataPostprocessor.exclude_tags := exclude_tags |} in
  let b := {| LanguageFilterPostprocessor.languages := [lang; "python"];
              LanguageFilterPostprocessor.min_result_size := N |} in
  let model := if String.eqb lang "en"
               then "rerank-english-v2.0" else "rerank-multilingual-v2.0" in
  let avoid := truth (or_bool (Retriever.is_avoid_query self) explicit) in
  let fused := (HybridRetriever._retrieve env fusion query avoid).1 in
  let call :=
    Retriever.retrieve env self query language top_k include_tags exclude_tags explicit in
  Forall (fun n => well_tagged n ∧ has_language n)
         (bm25_retrieve env k query ++ vector_retrieve env k query) →
  has_language (create_no_result_dummy_node env) →
  ∃ candidates,
    stage_A_then_B env a b fused = Ok candidates
    ∧ call.1.1 = (fun results : list NodeWithScore => Retriever.project <$> results)
                 <$> cohere_rerank env model N query candidates
    ∧ call.1.2 = match cohere_rerank env model N query candidates with
                 | Ok _ => Retriever.set_is_avoid_query self None
                 | Raise _ => self
                 end.
Proof.
  intros fusion k N lang a b model avoid fused call Hindex Hdummy.
  assert (Forall (fun n => well_tagged n ∧ has_language n) fused) as Hfused.
  { unfold fused, HybridRetriever._retrieve. cbn [fst].
    rewrite combine_first_occurrences. cbn [app].
    apply Forall_forall. intros n Hn.
    eapply elem_of_sublist in Hn; [|apply first_occurrences_sublist].
    rewrite app_assoc in Hn. apply elem_of_app in Hn as [Hn|Hn].
    - by eapply Forall_forall in Hindex.
    - unfold HybridRetriever.you_nodes in Hn. destruct (negb avoid); cbn [fst] in Hn.
      + eapply elem_of_sublist in Hn; [|apply base_retrieve_sublist].
        by apply web_node_well_formed in Hn as (_ & ? & ?).
      + by apply elem_of_nil in Hn. }
  destruct (stage_A_then_B_is_Ok env a b fused) as [candidates Hab].
  { intros _. eapply Forall_impl; [exact Hfused|]. by intros n [? ?]. }
  { eapply Forall_impl; [exact Hfused|]. by intros n [? ?]. }
  { done. }
  exists candidates. split; [done|].
  unfold call. rewrite retrieve_unfold. cbn zeta.
  unfold WandbRetrieverQueryEngine.retrieve. cbn [fst snd].
  rewrite load_query_engine_postprocessors. cbn zeta. fold N lang a b model avoid.
  rewrite apply_three_stages.
  change (HybridRetriever.retrieve env _ query avoid).1 with fused.
  rewrite Hab. cbn [mbind result_bind].
  by destruct (cohere_rerank env model N query candidates).
Qed.

(** A French request with an include tag, the web source answering
    with one snippet: the call completes. *)
Lemma only_the_reranker_can_fail_witness :
  let web := Sample.response [Sample.hit "page" ["snippet"]] in
  let env := Sample.env [Sample.abc] [Sample.cd] web in
  ∃ outputs,
    (Retriever.retrieve env (Sample.session None) "q" (Some "fr") None
       (Some ["c"]) None (Some false)).1.1 = Ok outputs.
Proof.
  intros web env.
  destruct (only_the_reranker_can_fail env (Sample.session None) "q" (Some "fr") None
              (Some ["c"]) None (Some false)) as (candidates & _ & Hcall & _).
  - repeat constructor; by eexists.
  - by eexists.
  - rewrite Hcall. by eexists.
Defined.

(** ** Errors of the two filters *)

(** The loop stops at the first element whose condition raises. *)
Lemma filter_loop_first_offender {A} (cond : A → result bool)
    (before : list A) (bad : A) (after : list A) (e : exn) (acc : list A) :
  Forall (fun x => is_Ok (cond x)) before →
  cond bad = Raise e →
  filter_loop cond (before ++ bad :: after) acc = Raise e.
Proof.
  intros Hbefore Hbad. revert acc.
  induction Hbefore as [|x before [b Hx] _ IH]; intros acc.
  - cbn [app filter_loop]. by rewrite Hbad.
  - cbn [app filter_loop]. rewrite Hx. cbn [mbind result_bind]. apply IH.
Qed.

(** A list with an element that lacks what the others have splits at
    the first such element. *)
Lemma split_at_first {A} (P : A → Prop) `{!∀ x, Decision (P x)} (l : list A) :
  ¬ Forall P l →
  ∃ before bad after, l = before ++ bad :: after ∧ Forall P before ∧ ¬ P bad.
Proof.
  induction l as [|x l IH]; intros Hl.
  - destruct Hl. constructor.
  - destruct (decide (P x)) as [Hx|Hx].
    + destruct IH as (before & bad & after & -> & Hbefore & Hbad).
      { intros Hrest. apply Hl. by constructor. }
      exists (x :: before), bad, after. split; [done|]. split; [by constructor|done].
    + exists [], x, l. split; [done|]. split; [constructor|done].
Qed.

Lemma language_in_is_Ok self n :
  has_language n → is_Ok (LanguageFilterPostprocessor.language_in self n).
Proof. intros Hn. rewrite language_in_policy by done. by eexists. Qed.

Lemma language_in_lacking self n :
  ¬ has_language n →
  LanguageFilterPostprocessor.language_in self n = Raise (KeyError "language").
Proof.
  intros Hn. unfold LanguageFilterPostprocessor.language_in, lookup_key.
  unfold has_language in Hn. apply eq_None_not_Some in Hn. by rewrite Hn.
Qed.

(** X3. Stage B returns exactly when every candidate has a ["language"]
    entry in its metadata; otherwise it raises KeyError "language", and
    it raises nothing else. *)
Theorem language_filter_raises_iff self nodes :
  (Forall has_language nodes ↔
   is_Ok (LanguageFilterPostprocessor._postprocess_nodes self nodes))
  ∧ (¬ Forall has_language nodes ↔
     LanguageFilterPostprocessor._postprocess_nodes self nodes = Raise (KeyError "language"))
  ∧ (∀ e, LanguageFilterPostprocessor._postprocess_nodes self nodes = Raise e →
          e = KeyError "language").
Proof.
  assert (Forall has_language nodes →
          is_Ok (LanguageFilterPostprocessor._postprocess_nodes self nodes)) as Hok.
  { intros Hall. rewrite language_postprocess by done. by eexists. }
  assert (¬ Forall has_language nodes →
          LanguageFilterPostprocessor._postprocess_nodes self nodes
          = Raise (KeyError "language")) as Hraise.
  { intros (before & bad & after & -> & Hbefore & Hbad)%split_at_first; [|apply _].
    unfold LanguageFilterPostprocessor._postprocess_nodes.
    rewrite (filter_loop_first_offender _ before bad after (KeyError "language")); [done| |].
    - eapply Forall_impl; [exact Hbefore|]. intros n. apply language_in_is_Ok.
    - by apply language_in_lacking. }
  destruct (decide (Forall has_language nodes)) as [Hall|Hnot].
  - destruct (Hok Hall) as [out Hout]. rewrite Hout.
    split; [split; [by eexists|done]|]. split; [split; [done|discriminate]|discriminate].
  - rewrite (Hraise Hnot).
    split; [split; [done|by intros [? ?]]|]. split; [done|]. by intros e [= <-].
Qed.

Lemma mapM_normalize_non_string items :
  Exists (fun v => ∀ s, v ≠ JStr s) items →
  mapM MetadataPostprocessor.normalize items = Raise AttributeError.
Proof.
  induction items as [|v items IH]; intros Hex; [by apply Exists_nil in Hex|].
  cbn [mapM]. destruct v; cbn [MetadataPostprocessor.normalize mbind result_bind]; try done.
  apply Exists_cons in Hex as [Hv|Hex]; [by destruct (Hv s)|].
  by rewrite (IH Hex).
Qed.

Lemma keeps_raises self n e :
  MetadataPostprocessor.normalized_tags n = Raise e →
  MetadataPostprocessor.keeps self n = Raise e.
Proof. intros Hn. unfold MetadataPostprocessor.keeps. by rewrite Hn. Qed.

(** X4. With a tag set in force, Stage A examines the candidates in
    order and raises at the first one whose tags cannot be normalised,
    whatever follows it: KeyError "tags" when the metadata has no
    ["tags"] entry, TypeError when the entry cannot be iterated, and
    AttributeError when it is a list holding something that is not a
    string. *)
Theorem tag_filter_raises_at_first_offender env self before bad after :
  ¬ (unset_or_empty (MetadataPostprocessor.include_tags self)
     ∧ unset_or_empty (MetadataPostprocessor.exclude_tags self)) →
  Forall well_tagged before →
  let outcome :=
    MetadataPostprocessor._postprocess_nodes env self (before ++ bad :: after) in
  (∀ e, MetadataPostprocessor.normalized_tags bad = Raise e → outcome = Raise e)
  ∧ (metadata (node bad) !! "tags" = None → outcome = Raise (KeyError "tags"))
  ∧ (∀ v, metadata (node bad) !! "tags" = Some v → iter v = Raise TypeError →
          outcome = Raise TypeError)
  ∧ (∀ items, metadata (node bad) !! "tags" = Some (JArr items) →
              Exists (fun v => ∀ s, v ≠ JStr s) items →
              outcome = Raise AttributeError).
Proof.
  intros Hactive Hbefore outcome.
  assert (∀ e, MetadataPostprocessor.normalized_tags bad = Raise e → outcome = Raise e)
    as Hfirst.
  { intros e Hbad. unfold outcome, MetadataPostprocessor._postprocess_nodes.
    destruct (negb (nonempty _) && negb (nonempty _)) eqn:Hguard.
    { apply andb_true_iff in Hguard as [Hi He].
      apply negb_true_iff, nonempty_false in Hi.
      apply negb_true_iff, nonempty_false in He. tauto. }
    rewrite (filter_loop_first_offender _ before bad after e); [done| |].
    - eapply Forall_impl; [exact Hbefore|]. intros n Hn.
      rewrite keeps_tag_policy by done. by eexists.
    - by apply keeps_raises. }
  split; [done|]. split; [|split].
  - intros Hnone. apply Hfirst.
    unfold MetadataPostprocessor.normalized_tags, lookup_key. by rewrite Hnone.
  - intros v Hv Hiter. apply Hfirst.
    unfold MetadataPostprocessor.normalized_tags, lookup_key. rewrite Hv.
    cbn [mbind result_bind]. by rewrite Hiter.
  - intros items Hv Hitems. apply Hfirst.
    unfold MetadataPostprocessor.normalized_tags, lookup_key. rewrite Hv.
    cbn [mbind result_bind iter]. by apply mapM_normalize_non_string.
Qed.

(** A candidate without metadata after a well-tagged one: KeyError
    "tags", although a candidate with a numeric tag follows. *)
Lemma tag_filter_raises_at_first_offender_witness :
  let self := {| MetadataPostprocessor.min_result_size := 2;
                 MetadataPostprocessor.include_tags := Some ["a"];
                 MetadataPostprocessor.exclude_tags := None |} in
  let bare := {| node := {| node_id := "bare"; text := ""; metadata := ∅ |};
                 score := None |} in
  let odd := {| node := {| node_id := "odd"; text := "";
                           metadata := {[ "tags" := JArr [JInt 1] ]} |};
                score := None |} in
  MetadataPostprocessor._postprocess_nodes (Sample.env [] [] Sample.outage) self
    [Sample.abc; bare; odd] = Raise (KeyError "tags").
Proof.
  intros self bare odd.
  apply (tag_filter_raises_at_first_offender
           (Sample.env [] [] Sample.outage) self [Sample.abc] bare [odd]).
  - intros [[H|H] _]; discriminate H.
  - repeat constructor.
  - reflexivity.
Defined.

(** ** What reaches the re-ranker *)

Lemma metadata_postprocess_inactive env self nodes :
  unset_or_empty (MetadataPostprocessor.include_tags self) →
  unset_or_empty (MetadataPostprocessor.exclude_tags self) →
  MetadataPostprocessor._postprocess_nodes env self nodes = Ok nodes.
Proof.
  intros Hi%nonempty_false He%nonempty_false.
  unfold MetadataPostprocessor._postprocess_nodes. by rewrite Hi, He.
Qed.

(** X5. On well-formed candidates the tag policy is strict and the
    language policy is soft: every entry that leaves Stage B is the
    sentinel or an input candidate that satisfies the tag policy, though
    not always the language policy, since Stage B pads with candidates
    it rejected; and no input candidate that satisfies both policies is
    lost on the way to the re-ranker. *)
Theorem candidates_reaching_the_reranker env a b nodes :
  let include_tags := MetadataPostprocessor.include_tags a in
  let exclude_tags := MetadataPostprocessor.exclude_tags a in
  let languages := LanguageFilterPostprocessor.languages b in
  (¬ (unset_or_empty include_tags ∧ unset_or_empty exclude_tags) →
   Forall well_tagged nodes) →
  Forall has_language nodes →
  has_language (create_no_result_dummy_node env) →
  ∃ out,
    stage_A_then_B env a b nodes = Ok out
    ∧ (∀ n, n ∈ nodes → tag_policy include_tags exclude_tags n →
            language_policy languages n → n ∈ out)
    ∧ (∀ n, n ∈ out →
            n = create_no_result_dummy_node env
            ∨ (n ∈ nodes ∧ tag_policy include_tags exclude_tags n)).
Proof.
  intros include_tags exclude_tags languages Htags Hlang Hdummy.
  assert (∃ mid, MetadataPostprocessor._postprocess_nodes env a nodes = Ok mid
                 ∧ Forall has_language mid
                 ∧ (∀ n, n ∈ nodes → tag_policy include_tags exclude_tags n → n ∈ mid)
                 ∧ (∀ n, n ∈ mid →
                         n = create_no_result_dummy_node env
                         ∨ (n ∈ nodes ∧ tag_policy include_tags exclude_tags n)))
    as (mid & Hmid & Hmidlang & Hcomplete & Hsound).
  { destruct (decide (unset_or_empty include_tags ∧ unset_or_empty exclude_tags))
      as [[Hi He]|Hon].
    - exists nodes. split; [by apply metadata_postprocess_inactive|].
      split; [done|]. split; [done|].
      intros n Hn. right. split; [done|]. by apply tag_policy_inactive.
    - eexists. split; [apply metadata_postprocess_active; [done|by apply Htags]|].
      fold include_tags exclude_tags. split; [|split].
      + apply Forall_app. split; [|by apply Forall_replicate].
        apply Forall_forall. intros n Hn. apply list_elem_of_filter in Hn as [_ Hn].
        by eapply Forall_forall in Hlang.
      + intros n Hn Hpol. apply elem_of_app. left. by apply list_elem_of_filter.
      + intros n [Hn|Hn]%elem_of_app.
        * right. apply list_elem_of_filter in Hn. tauto.
        * left. by apply elem_of_replicate in Hn as [-> _]. }
  pose proof (language_postprocess b mid Hmidlang) as Hout. cbn zeta in Hout.
  eexists. split.
  { rewrite stage_A_then_B_unfold, Hmid. exact Hout. }
  fold languages. set (matches := filter (language_policy languages) mid).
  split.
  - intros n Hn Hpol Hl.
    assert (n ∈ matches) as Hm by (apply list_elem_of_filter; split; [done|by apply Hcomplete]).
    destruct (decide _); [apply elem_of_app; by left|done].
  - intros n Hn. apply Hsound.
    destruct (decide _).
    + apply elem_of_app in Hn as [Hn|Hn].
      * by apply list_elem_of_filter in Hn as [_ ?].
      * by eapply elem_of_sublist; [exact Hn|apply sublist_take].
    + by apply list_elem_of_filter in Hn as [_ ?].
Qed.

(** A French candidate excluded by its tags stays out, while the
    English ones come back as padding. *)
Lemma candidates_reaching_the_reranker_witness :
  let env := Sample.env [] [] Sample.outage in
  let a := {| MetadataPostprocessor.min_result_size := 2;
              MetadataPostprocessor.include_tags := None;
              MetadataPostprocessor.exclude_tags := Some ["d"] |} in
  let b := {| LanguageFilterPostprocessor.languages := ["fr"; "python"];
              LanguageFilterPostprocessor.min_result_size := 2 |} in
  ∃ out,
    stage_A_then_B env a b [Sample.abc; Sample.cd; Sample.ab] = Ok out
    ∧ Sample.cd ∉ out.
Proof.
  intros env a b.
  destruct (candidates_reaching_the_reranker env a b [Sample.abc; Sample.cd; Sample.ab])
    as (out & Hout & _ & Hsound).
  - intros _. repeat constructor.
  - repeat constructor; by eexists.
  - by eexists.
  - exists out. split; [exact Hout|].
    intros [Hcd|[_ Hcd]]%Hsound; [discriminate Hcd|].
    assert (bool_decide (tag_policy None (Some ["d"]) Sample.cd) = false) as Hno
      by (vm_compute; reflexivity).
    by apply bool_decide_eq_false in Hno.
Defined.

(** ** More on the fusion *)

Lemma first_occurrences_app seen l k :
  first_occurrences seen (l ++ k) =
  first_occurrences seen l ++ first_occurrences (seen ∪ list_to_set (ident <$> l)) k.
Proof.
  revert seen. induction l as [|x l IH]; intros seen.
  - cbn [app fmap list_fmap list_to_set first_occurrences].
    f_equal. set_solver.
  - cbn [app first_occurrences]. rewrite fmap_cons.
    destruct (decide (ident x ∈ seen)) as [Hx|Hx].
    + rewrite IH. do 2 f_equal. set_solver.
    + rewrite IH. cbn [app]. do 3 f_equal. set_solver.
Qed.

Lemma first_occurrences_distinct seen l :
  NoDup (ident <$> l) →
  (∀ n, n ∈ l → ident n ∉ seen) →
  first_occurrences seen l = l.
Proof.
  revert seen. induction l as [|x l IH]; intros seen Hnd Hfresh; [done|].
  rewrite fmap_cons in Hnd. apply NoDup_cons in Hnd as [Hx Hnd].
  cbn [first_occurrences]. rewrite decide_False by (apply Hfresh; by left).
  f_equal. apply IH; [done|].
  intros n Hn. apply not_elem_of_union. split; [|apply Hfresh; by right].
  apply not_elem_of_singleton. intros Heq. apply Hx. rewrite <- Heq.
  apply list_elem_of_fmap. by exists n.
Qed.

(** The fused list by the flag: the concatenation deduplicated, with or
    without the web results. *)
Lemma fused_first_occurrences env self query (is_avoid_query : bool) :
  let k := HybridRetriever.similarity_top_k self in
  (HybridRetriever._retrieve env self query is_avoid_query).1 =
  first_occurrences ∅
    (bm25_retrieve env k query ++ vector_retrieve env k query
     ++ if is_avoid_query then []
        else YouRetriever.retrieve env (HybridRetriever.you_retriever self) query).
Proof.
  unfold HybridRetriever._retrieve, HybridRetriever.you_nodes. cbn [fst].
  rewrite combine_first_occurrences. cbn [app]. by destruct is_avoid_query.
Qed.

(** X6. Leaving the web source out only cuts the end of the fused
    list: the list fused without the web results is a prefix of the one
    fused with them, and what follows that prefix are the candidates
    returned by the web retriever's [retrieve] whose identity no lexical
    or vector candidate has, first occurrences only. *)
Theorem web_results_only_extend_the_fusion env self query :
  let k := HybridRetriever.similarity_top_k self in
  let index_nodes := bm25_retrieve env k query ++ vector_retrieve env k query in
  let web_nodes := YouRetriever.retrieve env (HybridRetriever.you_retriever self) query in
  let without := (HybridRetriever._retrieve env self query true).1 in
  let with_web := (HybridRetriever._retrieve env self query false).1 in
  with_web = without ++ first_occurrences (list_to_set (ident <$> index_nodes)) web_nodes
  ∧ without `prefix_of` with_web
  ∧ (∀ n, n ∈ with_web →
          n ∈ without
          ∨ (n ∈ web_nodes ∧ ∀ n', n' ∈ index_nodes → ident n' ≠ ident n)).
Proof.
  intros k index_nodes web_nodes without with_web.
  assert (with_web = without
          ++ first_occurrences (list_to_set (ident <$> index_nodes)) web_nodes) as Heq.
  { unfold with_web, without. rewrite !fused_first_occurrences. cbn zeta.
    rewrite app_nil_r, app_assoc, first_occurrences_app. fold k index_nodes web_nodes.
    do 2 f_equal. set_solver. }
  split; [done|]. split; [rewrite Heq; by apply prefix_app_r|].
  intros n. rewrite Heq. intros [Hn|Hn]%elem_of_app; [by left|right]. split.
  - eapply elem_of_sublist; [exact Hn|apply first_occurrences_sublist].
  - intros n' Hn' Hid. apply first_occurrences_fresh in Hn. apply Hn.
    apply elem_of_list_to_set, list_elem_of_fmap. by exists n'.
Qed.

(** X7. The fusion drops a candidate only for a repeated identity: the
    fused list is the whole concatenation of what the three retrievers'
    [retrieve] returned exactly when no identity occurs twice in it, it
    is never longer than the concatenation, and it is empty only when
    all three returned nothing. *)
Theorem fusion_drops_only_repeats env self query is_avoid_query :
  let k := HybridRetriever.similarity_top_k self in
  let all_nodes :=
    bm25_retrieve env k query ++ vector_retrieve env k query
    ++ (if is_avoid_query : bool then []
        else YouRetriever.retrieve env (HybridRetriever.you_retriever self) query) in
  let fused := (HybridRetriever._retrieve env self query is_avoid_query).1 in
  (fused = all_nodes ↔ NoDup (ident <$> all_nodes))
  ∧ (length fused ≤ length all_nodes)%nat
  ∧ (fused = [] ↔ all_nodes = []).
Proof.
  intros k all_nodes fused.
  assert (fused = first_occurrences ∅ all_nodes) as ->
    by apply fused_first_occurrences.
  split; [|split].
  - split.
    + intros <-. apply first_occurrences_NoDup.
    + intros Hnd. apply first_occurrences_distinct; [done|]. intros n _. apply not_elem_of_empty.
  - apply sublist_length, first_occurrences_sublist.
  - split; [|by intros ->].
    destruct all_nodes as [|n l]; [done|].
    cbn [first_occurrences]. by rewrite decide_False by apply not_elem_of_empty.
Qed.

(** ** Construction *)

(** X8. The web retriever takes its key from the argument when that is
    a non-empty string and from YOU_API_KEY in the environment
    otherwise, an empty argument counting as none; it is built exactly
    when one of the two is there, and the only error of its
    construction is KeyError "YOU_API_KEY". *)
Theorem you_retriever_key_resolution environ api_key similarity_top_k :
  let built := YouRetriever.__init__ environ api_key similarity_top_k in
  let given := match api_key with
               | Some (String c s) => Some (String c s)
               | _ => None
               end in
  (is_Ok built ↔ is_Some given ∨ is_Some (environ !! "YOU_API_KEY"))
  ∧ (∀ e, built = Raise e → e = KeyError "YOU_API_KEY")
  ∧ (∀ you, built = Ok you →
       Some (YouRetriever._api_key you)
       = match given with
         | Some key => Some key
         | None => environ !! "YOU_API_KEY"
         end).
Proof.
  intros built given. unfold built, given, YouRetriever.__init__, lookup_key.
  destruct api_key as [[|c s]|]; destruct (environ !! "YOU_API_KEY") as [v|];
    cbn [mbind result_bind mret result_ret];
    (split;
       [split;
          [intros [? H]; first [discriminate H | left; by eexists | right; by eexists]
          |intros [[? H]|[? H]]; first [discriminate H | by eexists]]
       |]);
    (split; [intros e H; first [discriminate H | by injection H as <-] |]);
    intros you H; first [discriminate H | by injection H as <-].
Qed.

(** X9. The fusion retriever hands the web retriever the value of
    YOU_API_KEY read with a default, yet the web retriever looks the
    variable up again when that value is missing or empty: without
    YOU_API_KEY in the environment the construction raises KeyError
    once the index retrievers are built.
    When it is built, the index retrievers keep the requested limit and
    only the web retriever's is cut to 20. *)
Theorem fusion_retriever_needs_the_key environ similarity_top_k :
  (environ !! "YOU_API_KEY" = None →
   HybridRetriever.__init__ environ similarity_top_k = Raise (KeyError "YOU_API_KEY"))
  ∧ (∀ key, environ !! "YOU_API_KEY" = Some key →
       HybridRetriever.__init__ environ similarity_top_k
       = Ok {| HybridRetriever.similarity_top_k := similarity_top_k;
               HybridRetriever.you_retriever :=
                 {| YouRetriever._api_key := key;
                    YouRetriever.similarity_top_k := Z.min similarity_top_k 20 |} |}).
Proof.
  unfold HybridRetriever.__init__, YouRetriever.__init__, lookup_key. split.
  - intros ->. done.
  - intros key ->. cbn [mbind result_bind mret result_ret].
    assert ((if similarity_top_k <=? 20 then similarity_top_k else 20)
            = Z.min similarity_top_k 20) as ->
      by (destruct (Z.leb_spec similarity_top_k 20); lia).
    by destruct key.
Qed.

(** ** More on the session *)

(** X10. [load_query_engine] stores the flag it is given, True or
    False, and leaves the stored one alone when given none; the engine
    it builds does not depend on the flag.  The next [retrieve] then
    leaves the web source out exactly when the flag given was True, or
    none was given and one was stored as True, or the call's own flag is
    True: a False passed to [load_query_engine] cancels a stored True. *)
Theorem load_query_engine_stores_the_flag self top_k language include_tags exclude_tags flag :
  let built := Retriever.load_query_engine self top_k language include_tags exclude_tags flag in
  Retriever.is_avoid_query built.2
  = match flag with
    | Some b => Some b
    | None => Retriever.is_avoid_query self
    end
  ∧ Retriever.config built.2 = Retriever.config self
  ∧ Retriever._retriever built.2 = Retriever._retriever self
  ∧ built.1
    = (Retriever.load_query_engine self top_k language include_tags exclude_tags None).1
  ∧ ∀ env query language' top_k' include_tags' exclude_tags' explicit,
      (Retriever.retrieve env built.2 query language' top_k'
         include_tags' exclude_tags' explicit).2 = []
      ↔ flag = Some true
        ∨ (flag = None ∧ Retriever.is_avoid_query self = Some true)
        ∨ explicit = Some true.
Proof.
  intros built.
  assert (Retriever.is_avoid_query built.2
          = match flag with
            | Some b => Some b
            | None => Retriever.is_avoid_query self
            end) as Hflag by by destruct flag.
  split; [done|]. split; [by destruct flag|]. split; [by destruct flag|].
  split; [done|].
  intros env query language' top_k' include_tags' exclude_tags' explicit.
  rewrite retrieve_sent.
  pose proof (truth_or_bool (Retriever.is_avoid_query built.2) explicit) as Hor.
  rewrite Hflag in Hor. rewrite Hflag.
  destruct (truth (or_bool _ explicit)).
  - split; [intros _|done].
    destruct (proj1 Hor eq_refl) as [H|H]; [|by right; right].
    destruct flag as [b|]; [left; congruence|right; left; done].
  - split; [done|]. intros H. exfalso.
    assert (true = false) as Habs; [|done].
    symmetry. apply Hor.
    destruct H as [->|[[-> H]|H]]; [by left|by left|by right].
Qed.

(** Stage A only looks at the truthiness of its tag lists and, when
    they are truthy, at their contents. *)
Lemma metadata_postprocess_ext env a a' nodes :
  MetadataPostprocessor.min_result_size a = MetadataPostprocessor.min_result_size a' →
  nonempty (MetadataPostprocessor.include_tags a)
  = nonempty (MetadataPostprocessor.include_tags a') →
  nonempty (MetadataPostprocessor.exclude_tags a)
  = nonempty (MetadataPostprocessor.exclude_tags a') →
  default [] (MetadataPostprocessor.include_tags a)
  = default [] (MetadataPostprocessor.include_tags a') →
  default [] (MetadataPostprocessor.exclude_tags a)
  = default [] (MetadataPostprocessor.exclude_tags a') →
  MetadataPostprocessor._postprocess_nodes env a nodes
  = MetadataPostprocessor._postprocess_nodes env a' nodes.
Proof.
  intros HN Hi He Hdi Hde.
  unfold MetadataPostprocessor._postprocess_nodes. rewrite Hi, He, HN.
  assert (∀ acc, filter_loop (MetadataPostprocessor.keeps a) nodes acc
                 = filter_loop (MetadataPostprocessor.keeps a') nodes acc) as ->; [|done].
  induction nodes as [|n nodes IH]; intros acc; [done|].
  cbn [filter_loop].
  assert (MetadataPostprocessor.keeps a n = MetadataPostprocessor.keeps a' n) as ->
    by (unfold MetadataPostprocessor.keeps; by rewrite Hi, He, Hdi, Hde).
  destruct (MetadataPostprocessor.keeps a' n) as [keep|]; [|done].
  cbn [mbind result_bind]. apply IH.
Qed.

Lemma retrieve_tags_ext env self query language top_k
    include_tags exclude_tags include_tags' exclude_tags' explicit :
  nonempty include_tags = nonempty include_tags' →
  nonempty exclude_tags = nonempty exclude_tags' →
  default [] include_tags = default [] include_tags' →
  default [] exclude_tags = default [] exclude_tags' →
  Retriever.retrieve env self query language top_k include_tags exclude_tags explicit
  = Retriever.retrieve env self query language top_k include_tags' exclude_tags' explicit.
Proof.
  intros Hi He Hdi Hde.
  rewrite !retrieve_unfold. cbn zeta.
  unfold WandbRetrieverQueryEngine.retrieve. cbn [fst snd].
  rewrite !load_query_engine_postprocessors. cbn zeta.
  rewrite !apply_three_stages, !stage_A_then_B_unfold.
  set (N := or_int top_k (RetrieverConfig.top_k (Retriever.config self))).
  by rewrite (metadata_postprocess_ext env
                {| MetadataPostprocessor.min_result_size := N;
                   MetadataPostprocessor.include_tags := include_tags;
                   MetadataPostprocessor.exclude_tags := exclude_tags |}
                {| MetadataPostprocessor.min_result_size := N;
                   MetadataPostprocessor.include_tags := include_tags';
                   MetadataPostprocessor.exclude_tags := exclude_tags' |}).
Qed.

(** X11. Arguments that are falsy in Python are treated as absent: a
    [top_k] of 0, an empty [language], an empty tag list and a flag of
    False give the same call as None in their place. *)
Theorem falsy_arguments_are_absent env self query language top_k
    include_tags exclude_tags explicit :
  Retriever.retrieve env self query language (Some 0) include_tags exclude_tags explicit
  = Retriever.retrieve env self query language None include_tags exclude_tags explicit
  ∧ Retriever.retrieve env self query (Some "") top_k include_tags exclude_tags explicit
    = Retriever.retrieve env self query None top_k include_tags exclude_tags explicit
  ∧ Retriever.retrieve env self query language top_k (Some []) exclude_tags explicit
    = Retriever.retrieve env self query language top_k None exclude_tags explicit
  ∧ Retriever.retrieve env self query language top_k include_tags (Some []) explicit
    = Retriever.retrieve env self query language top_k include_tags None explicit
  ∧ Retriever.retrieve env self query language top_k include_tags exclude_tags (Some false)
    = Retriever.retrieve env self query language top_k include_tags exclude_tags None.
Proof.
  split; [done|]. split; [done|].
  split; [by apply retrieve_tags_ext|]. split; [by apply retrieve_tags_ext|].
  rewrite !retrieve_unfold. cbn zeta.
  by destruct (Retriever.is_avoid_query self) as [[]|].
Qed.

(** X12. Apart from the empty result, [__call__] is [retrieve]: it
    returns the same list, or raises the same exception, leaves the
    session in the same state and sends the same requests. *)
Theorem call_is_retrieve_unless_empty env self query language top_k
    include_tags exclude_tags explicit :
  (Retriever.retrieve env self query language top_k include_tags exclude_tags explicit).1.1
  ≠ Ok [] →
  Retriever.__call__ env self query language top_k include_tags exclude_tags explicit
  = Retriever.retrieve env self query language top_k include_tags exclude_tags explicit.
Proof.
  unfold Retriever.__call__.
  destruct (Retriever.retrieve env self query language top_k
              include_tags exclude_tags explicit) as [[[[|o os]|e] self'] sent];
    cbn [fst snd]; by intros H.
Qed.

(** Two index candidates and a failing web source: the call returns
    them, and so does [__call__]. *)
Lemma call_is_retrieve_unless_empty_witness :
  let env := Sample.env [Sample.abc] [Sample.ab] Sample.outage in
  (Retriever.__call__ env (Sample.session None) "q" None None None None None).1.1
  = Ok [Retriever.project Sample.abc; Retriever.project Sample.ab].
Proof.
  intros env.
  rewrite (call_is_retrieve_unless_empty env (Sample.session None) "q" None None None None None).
  - vm_compute. reflexivity.
  - vm_compute. discriminate.
Defined.

(** X13. A call to [retrieve] never changes the configuration or the
    fusion retriever of the session.  When it raises, the stored flag is
    not consumed either: the session is exactly as before, so a stored
    True still keeps the web source out of the next call. *)
Theorem failed_call_keeps_the_session env self query language top_k
    include_tags exclude_tags explicit :
  let call :=
    Retriever.retrieve env self query language top_k include_tags exclude_tags explicit in
  Retriever.config call.1.2 = Retriever.config self
  ∧ Retriever._retriever call.1.2 = Retriever._retriever self
  ∧ ∀ e, call.1.1 = Raise e →
      call.1.2 = self
      ∧ (Retriever.is_avoid_query self = Some true →
         ∀ env' query' language' top_k' include_tags' exclude_tags' explicit',
           (Retriever.retrieve env' call.1.2 query' language' top_k'
              include_tags' exclude_tags' explicit').2 = []).
Proof.
  intros call. unfold call. rewrite retrieve_unfold. cbn zeta.
  destruct (WandbRetrieverQueryEngine.retrieve env _ query _) as [[results|e'] sent].
  - cbn. split; [done|]. split; [done|]. by intros e.
  - cbn [fst snd fmap result_fmap]. split; [done|]. split; [done|].
    intros e _. split; [done|].
    intros Hflag env' query' language' top_k' include_tags' exclude_tags' explicit'.
    rewrite retrieve_sent, Hflag. done.
Qed.

(** A session that stores True, and a lexical candidate without
    metadata: Stage B raises KeyError, the flag stays, and the next call
    still sends nothing to the web source. *)
Example failed_call_keeps_the_flag :
  let bare := {| node := {| node_id := "bare"; text := ""; metadata := ∅ |};
                 score := None |} in
  let env := Sample.env [bare] [] Sample.outage in
  let call := Retriever.retrieve env (Sample.session (Some true)) "q"
                None None None None None in
  call.1.1 = Raise (KeyError "language")
  ∧ Retriever.is_avoid_query call.1.2 = Some true
  ∧ (Retriever.retrieve env call.1.2 "again" None None None None None).2 = [].
Proof. intros bare env call. repeat split; by vm_compute. Qed.

(** ** More on Stage B *)

Lemma filter_all {A} (P : A → Prop) `{!∀ x, Decision (P x)} (l : list A) :
  Forall P l → filter P l = l.
Proof.
  induction 1 as [|x l Hx _ IH]; [done|].
  by rewrite filter_cons_True, IH.
Qed.

(** X14. Stage B is the identity on a list whose candidates all match
    the language policy only when there are at least N of them.  A
    shorter list comes back followed by its own first N - L candidates
    (L its length), so with min(N, 2L) entries, every one of those
    leading candidates twice. *)
Theorem short_matching_list_is_repeated self nodes :
  let N := LanguageFilterPostprocessor.min_result_size self in
  Forall has_language nodes →
  Forall (language_policy (LanguageFilterPostprocessor.languages self)) nodes →
  (N <= len nodes → LanguageFilterPostprocessor._postprocess_nodes self nodes = Ok nodes)
  ∧ (len nodes < N →
     LanguageFilterPostprocessor._postprocess_nodes self nodes
     = Ok (nodes ++ take (Z.to_nat (N - len nodes)) nodes)
     ∧ len (nodes ++ take (Z.to_nat (N - len nodes)) nodes) = Z.min N (2 * len nodes)
     ∧ (nodes ≠ [] →
        LanguageFilterPostprocessor._postprocess_nodes self nodes ≠ Ok nodes)).
Proof.
  intros N Hlang Hall.
  pose proof (language_postprocess self nodes Hlang) as Hout. cbn zeta in Hout.
  rewrite (filter_all _ nodes Hall) in Hout. fold N in Hout.
  split.
  - intros Hge. by rewrite Hout, decide_False by lia.
  - intros Hlt. rewrite Hout, decide_True by done. split; [done|].
    assert (len (nodes ++ take (Z.to_nat (N - len nodes)) nodes) = Z.min N (2 * len nodes))
      as Hlen.
    { rewrite len_app. unfold len. rewrite length_take. unfold len in Hlt. lia. }
    split; [done|].
    intros Hne [= Heq]. apply (f_equal len) in Heq. rewrite Hlen in Heq.
    destruct nodes; [done|]. unfold len in *. cbn [length] in *. lia.
Qed.

(** Three English candidates and N = 5: five entries come back, the
    first two candidates twice. *)
Lemma short_matching_list_is_repeated_witness :
  let self := {| LanguageFilterPostprocessor.languages := ["en"; "python"];
                 LanguageFilterPostprocessor.min_result_size := 5 |} in
  let x := Sample.passage "x" "python" [] 1%float in
  LanguageFilterPostprocessor._postprocess_nodes self [Sample.abc; Sample.ab; x]
  = Ok [Sample.abc; Sample.ab; x; Sample.abc; Sample.ab].
Proof.
  intros self x.
  destruct (short_matching_list_is_repeated self [Sample.abc; Sample.ab; x])
    as (_ & Hshort).
  - repeat constructor; by eexists.
  - repeat constructor; by vm_compute.
  - destruct Hshort as (-> & _); [by vm_compute|]. reflexivity.
Defined.

(** ** More on the web source *)

Lemma Forall2_mapM_Ok {A B} (f : A → result B) (l : list A) (k : list B) :
  Forall2 (fun x y => f x = Ok y) l k → mapM f l = Ok k.
Proof.
  induction 1 as [|x y l k Hx _ IH]; [done|].
  cbn [mapM]. rewrite Hx. cbn [mbind result_bind]. by rewrite IH.
Qed.

Lemma Forall2_fmap_eq {A B C} (f : A → C) (g : B → C) (l : list A) (k : list B) :
  Forall2 (fun x y => f x = g y) l k → f <$> l = g <$> k.
Proof. induction 1 as [|x y l k Hxy _ IH]; [done|]. by rewrite !fmap_cons, Hxy, IH. Qed.

(** The snippets paired with metadata, hit by hit, are the items the
    loop over each hit's snippets goes through. *)
Lemma search_hits_items (hits snippets : list json) (mds : list (gmap string json))
    (per_hit : list (list (json * gmap string json))) :
  mapM (fun hit => getitem hit "snippets") hits = Ok snippets →
  mapM YouRetriever.hit_metadata hits = Ok mds →
  mapM YouRetriever.hit_pairs (zip snippets mds) = Ok per_hit →
  fst <$> mjoin per_hit = mjoin (snippet_items <$> hits).
Proof.
  intros Hs%mapM_Ok_Forall2 Hm%mapM_Ok_Forall2 Hp%mapM_Ok_Forall2.
  rewrite fmap_mjoin. f_equal. symmetry.
  apply Forall2_fmap_eq, Forall2_same_length_lookup.
  pose proof (Forall2_length _ _ _ Hs) as Hls.
  pose proof (Forall2_length _ _ _ Hm) as Hlm.
  pose proof (Forall2_length _ _ _ Hp) as Hlp.
  rewrite length_zip in Hlp. split; [lia|].
  intros i hit pairs Hhit Hpairs.
  destruct (Forall2_lookup_l _ _ _ _ _ Hs Hhit) as (v & Hv & Hget).
  destruct (Forall2_lookup_l _ _ _ _ _ Hm Hhit) as (md & Hmd & _).
  assert (zip snippets mds !! i = Some (v, md)) as Hz.
  { rewrite lookup_zip_with, Hv. cbn. by rewrite Hmd. }
  destruct (Forall2_lookup_l _ _ _ _ _ Hp Hz) as (pairs' & Hpairs' & Hhp).
  assert (pairs' = pairs) as -> by congruence.
  unfold snippet_items. rewrite Hget. cbn [mbind result_bind].
  unfold YouRetriever.hit_pairs in Hhp. cbn [fst snd] in Hhp.
  destruct (iter v) as [items|]; cbn [mbind result_bind] in Hhp; [|done].
  injection Hhp as <-. rewrite <- list_fmap_compose. symmetry. apply list_fmap_id.
Qed.

Lemma make_nodes_validate env (search_hits : list (json * gmap string json))
    (out : list NodeWithScore) :
  mapM (YouRetriever.make_node env) (zip (seq 0 (length search_hits)) search_hits) = Ok out →
  mapM (validate_text env) (fst <$> search_hits) = Ok (get_text <$> out).
Proof.
  intros Hout%mapM_Ok_Forall2. apply Forall2_mapM_Ok.
  apply Forall2_fmap, Forall2_same_length_lookup.
  pose proof (Forall2_length _ _ _ Hout) as Hlen.
  rewrite length_zip, length_seq, Nat.min_id in Hlen. split; [done|].
  intros i [snippet md] n Hi Hn.
  destruct (Forall2_lookup_r _ _ _ _ _ Hout Hn) as ([j [snippet' md']] & Hz & Hmake).
  rewrite lookup_zip_with in Hz.
  destruct (seq 0 (length search_hits) !! i) as [j'|]; cbn in Hz; [|done].
  rewrite Hi in Hz. cbn in Hz. injection Hz as <- <- <-.
  cbn [fst]. unfold YouRetriever.make_node in Hmake. cbn [fst snd] in Hmake.
  destruct (validate_text env snippet) as [txt|]; cbn [mbind result_bind] in Hmake; [|done].
  by injection Hmake as <-.
Qed.

(** X15. When the web source returns nodes for a 200 response, their
    texts are, in order, the validated items that iterating each hit's
    ["snippets"] yields, hit after hit; the value need not be a list: a
    snippets string gives one candidate per character, a dict one per
    key. *)
Theorem web_nodes_follow_iteration env you query results out :
  YouRetriever.send env you query = HttpResponse 200 (Ok results) →
  YouRetriever.nodes_of_results env results = Ok out →
  YouRetriever._retrieve env you query = out
  ∧ ∃ hits,
      getitem results "hits" ≫= iter = Ok hits
      ∧ mapM (validate_text env) (mjoin (snippet_items <$> hits)) = Ok (get_text <$> out)
      ∧ length out = sum_list (length <$> (snippet_items <$> hits)).
Proof.
  intros Hsend Hout. split.
  { unfold YouRetriever._retrieve, YouRetriever.try_retrieve.
    rewrite Hsend. cbn. by rewrite Hout. }
  apply nodes_of_results_inv in Hout
    as (hits & snippets & mds & per_hit & Hhits & Hs & Hm & Hp & Hout).
  exists hits. split; [done|].
  apply make_nodes_validate in Hout.
  rewrite (search_hits_items hits snippets mds per_hit Hs Hm Hp) in Hout.
  split; [done|].
  apply mapM_Ok_Forall2, Forall2_length in Hout.
  rewrite length_fmap in Hout. by rewrite <- length_join.
Qed.

(** A hit whose snippets are the string "ab" and one whose snippets are
    a dict: a candidate for each character and for each key. *)
Lemma web_nodes_follow_iteration_witness :
  let page snippets :=
    JObj [("url", JStr "u"); ("title", JStr "t"); ("description", JStr "d");
          ("snippets", snippets)] in
  let results :=
    JObj [("hits", JArr [page (JStr "ab"); page (JObj [("k1", JNull); ("k2", JNull)])])] in
  let env := Sample.env [] [] (HttpResponse 200 (Ok results)) in
  get_text <$> YouRetriever._retrieve env Sample.you "q" = ["a"; "b"; "k1"; "k2"].
Proof.
  intros page results env.
  destruct (web_nodes_follow_iteration env Sample.you "q" results
              (YouRetriever._retrieve env Sample.you "q"))
    as (_ & hits & Hhits & Htexts & _).
  - reflexivity.
  - vm_compute. reflexivity.
  - injection Hhits as <-.
    exact (f_equal (fun r => match r with Ok texts => texts | Raise _ => [] end)
                   (eq_sym Htexts)).
Defined.
